(** * Gateway RPC transport: the one-shot [callGateway] orchestrator

    A shallow embedding of [callGateway] (gateway/call.ts).  The function
    builds a promise whose executor wires two hooks into a [GatewayClient],
    arms a timer and starts the client; afterwards the host's event loop runs
    the hooks, the timer callback and the continuation of the awaited request,
    one at a time.  The closure variables the callbacks share ([settled],
    [ignoreClose], [timer], [client]) become fields of an explicit state, the
    callbacks become computations in a small state-and-exception monad, and
    the event loop becomes a labelled step function.

    The [GatewayClient] class, [randomUUID] and the host's timers are
    collaborators: calls into them are recorded, in program order, in the
    [trace] field, and what they do to the orchestrator arrives as events. *)

From Stdlib Require Import ZArith List String Bool Lia.
From Stdlib Require Import DecimalString DecimalZ DecimalPos.
Import ListNotations.

Local Open Scope Z_scope.

(** ** Values *)

(** A JavaScript [Error]; the orchestrator only ever builds one from a message
    string.  An object is truthy, so [if (err)] on a value of the declared type
    [Error | undefined] tests for presence. *)
Record Error := mkError { message : string }.

(** What a promise is rejected with, and so what [catch (err)] receives.
    The language puts no type on it: it is an [Error] object, as the cast
    [err as Error] expects, or any other value.  All the code does with it
    is the test [if (err)] and the call [reject(err)], so the model keeps
    two cases: a truthy reason, taken to be an [Error] object, and a falsy
    one ([undefined], [null], [0], the empty string, [false], [NaN]). *)
Inductive Reason :=
| an_error (e : Error)
| falsy_value.

(** [err as Error]: a cast changes nothing at run time.  Where the value is
    then tested with [if (err)], [None] is a falsy one. *)
Definition as_Error (r : Reason) : option Error :=
  match r with
  | an_error e => Some e
  | falsy_value => None
  end.

(** The largest delay, in milliseconds, the host's timers take as given. *)
Definition TIMEOUT_MAX : Z := 2147483647.

(** The delay the host runs a timer with: one above [TIMEOUT_MAX] is replaced
    by 1 ms.  (The host also runs a delay below 1 ms as 1 ms; the model lets
    such a timer run from the moment it is armed.) *)
Definition host_delay (ms : Z) : Z :=
  if ms <=? TIMEOUT_MAX then ms else 1.

(** [`${code}`] for an integral number. *)
Definition show_number (n : Z) : string := NilZero.string_of_int (Z.to_int n).

(** [a ?? b] with a pure right operand: [None] stands for [undefined]. *)
Definition nullish {A : Type} (a : option A) (b : A) : A :=
  match a with
  | Some v => v
  | None => b
  end.

Notation "a ?? b" := (nullish a b) (at level 45, left associativity).

(** [CallGatewayOptions]: every field but [method] is optional. *)
Record CallGatewayOptions (Unknown : Type) := {
  url : option string;
  token : option string;
  password : option string;
  method : string;
  params : option Unknown;
  expectFinal : option bool;
  timeoutMs : option Z;
  clientName : option string;
  clientVersion : option string;
  platform : option string;
  mode : option string;
  instanceId : option string;
  minProtocol : option Z;
  maxProtocol : option Z
}.

Arguments url {Unknown}.
Arguments token {Unknown}.
Arguments password {Unknown}.
Arguments method {Unknown}.
Arguments params {Unknown}.
Arguments expectFinal {Unknown}.
Arguments timeoutMs {Unknown}.
Arguments clientName {Unknown}.
Arguments clientVersion {Unknown}.
Arguments platform {Unknown}.
Arguments mode {Unknown}.
Arguments instanceId {Unknown}.
Arguments minProtocol {Unknown}.
Arguments maxProtocol {Unknown}.

(** The data fields of the object literal handed to [new GatewayClient]; the
    two hooks of that literal are the handlers [onHelloOk] and [onClose]
    below. *)
Record GatewayClientOptions := {
  cfg_url : option string;
  cfg_token : option string;
  cfg_password : option string;
  cfg_instanceId : string;
  cfg_clientName : string;
  cfg_clientVersion : string;
  cfg_platform : option string;
  cfg_mode : string;
  cfg_minProtocol : Z;
  cfg_maxProtocol : Z
}.

(** The handle returned by [setTimeout]: waiting for its deadline, already
    run, or cancelled by [clearTimeout]. *)
Inductive Timer :=
| Pending (deadline : Z)
| Fired
| Cleared.

(** How the promise returned by [callGateway] ended. *)
Inductive Settlement (T : Type) :=
| Resolved (value : option T)
| Rejected (err : Error).

Arguments Resolved {T}.
Arguments Rejected {T}.

(** Calls the orchestrator makes, and its writes to [ignoreClose]. *)
Inductive Action (T Unknown : Type) :=
| ARandomUUID
| ANewGatewayClient (cfg : GatewayClientOptions)
| ASetTimeout (ms : Z)
| AClientStart
| AClientRequest (m : string) (p : option Unknown) (expect_final : option bool)
| ASetIgnoreClose (b : bool)
| AClientStop
| AClearTimeout
| AResolve (value : option T)
| AReject (err : Error).

Arguments ARandomUUID {T Unknown}.
Arguments ANewGatewayClient {T Unknown}.
Arguments ASetTimeout {T Unknown}.
Arguments AClientStart {T Unknown}.
Arguments AClientRequest {T Unknown}.
Arguments ASetIgnoreClose {T Unknown}.
Arguments AClientStop {T Unknown}.
Arguments AClearTimeout {T Unknown}.
Arguments AResolve {T Unknown}.
Arguments AReject {T Unknown}.

(** What [client.stop()] reports through the [onClose] hook before it
    returns, if anything: the close code and reason. *)
Definition CloseReport : Type := option (Z * string).

(** What the event loop can run next.  The events whose callback calls
    [client.stop()] say how the client answers that call. *)
Inductive Event (T : Type) :=
| EvElapse (ms : N)
| EvTimeout (echo : CloseReport)
| EvHelloOk
| EvPartial (payload : T)
| EvResponse (result : T) (echo : CloseReport)
| EvRequestError (err : Reason) (echo : CloseReport)
| EvClose (code : Z) (reason : string).

Arguments EvElapse {T}.
Arguments EvTimeout {T}.
Arguments EvHelloOk {T}.
Arguments EvPartial {T}.
Arguments EvResponse {T}.
Arguments EvRequestError {T}.
Arguments EvClose {T}.

(** The four ways a call can end. *)
Inductive Kind := Success | TimeoutFailure | CloseFailure | ApplicationFailure.

Inductive Result (A : Type) :=
| Ok (a : A)
| Throw (e : Error).

Arguments Ok {A}.
Arguments Throw {A}.

Section CallGateway.

Variable T : Type.
Variable Unknown : Type.

(** [PROTOCOL_VERSION] is imported from protocol/index.js. *)
Variable PROTOCOL_VERSION : Z.

(** The tokens [randomUUID] of node:crypto hands out, in order of the calls. *)
Variable uuid_source : nat -> string.

(** ** State shared by the callbacks *)

Record State := mkState {
  settled : bool;
  ignoreClose : bool;
  (** [None] while the [const timer] binding is not initialised. *)
  timer : option Timer;
  (** [None] while the [const client] binding is not initialised. *)
  client : option GatewayClientOptions;
  started : bool;
  (** Invocations of [onHelloOk] suspended at their [await]. *)
  awaiting : nat;
  promise : option (Settlement T);
  (** Host clock, in milliseconds. *)
  now : Z;
  (** Calls made to [randomUUID] so far. *)
  drawn : nat;
  (** Exceptions that left a callback. *)
  uncaught : list Error;
  trace : list (Action T Unknown)
}.

(** State at the first statement of the promise executor:
    [let settled = false; let ignoreClose = false;]. *)
Definition initial (t0 : Z) (n : nat) : State :=
  mkState false false None None false 0%nat None t0 n [] [].

Definition set_settled (b : bool) (s : State) : State :=
  mkState b (ignoreClose s) (timer s) (client s) (started s) (awaiting s)
          (promise s) (now s) (drawn s) (uncaught s) (trace s).

Definition set_ignoreClose (b : bool) (s : State) : State :=
  mkState (settled s) b (timer s) (client s) (started s) (awaiting s)
          (promise s) (now s) (drawn s) (uncaught s) (trace s).

Definition set_timer (t : option Timer) (s : State) : State :=
  mkState (settled s) (ignoreClose s) t (client s) (started s) (awaiting s)
          (promise s) (now s) (drawn s) (uncaught s) (trace s).

Definition set_client (c : option GatewayClientOptions) (s : State) : State :=
  mkState (settled s) (ignoreClose s) (timer s) c (started s) (awaiting s)
          (promise s) (now s) (drawn s) (uncaught s) (trace s).

Definition set_started (b : bool) (s : State) : State :=
  mkState (settled s) (ignoreClose s) (timer s) (client s) b (awaiting s)
          (promise s) (now s) (drawn s) (uncaught s) (trace s).

Definition set_awaiting (k : nat) (s : State) : State :=
  mkState (settled s) (ignoreClose s) (timer s) (client s) (started s) k
          (promise s) (now s) (drawn s) (uncaught s) (trace s).

Definition set_promise (p : option (Settlement T)) (s : State) : State :=
  mkState (settled s) (ignoreClose s) (timer s) (client s) (started s)
          (awaiting s) p (now s) (drawn s) (uncaught s) (trace s).

Definition set_now (t : Z) (s : State) : State :=
  mkState (settled s) (ignoreClose s) (timer s) (client s) (started s)
          (awaiting s) (promise s) t (drawn s) (uncaught s) (trace s).

Definition set_drawn (k : nat) (s : State) : State :=
  mkState (settled s) (ignoreClose s) (timer s) (client s) (started s)
          (awaiting s) (promise s) (now s) k (uncaught s) (trace s).

Definition set_uncaught (l : list Error) (s : State) : State :=
  mkState (settled s) (ignoreClose s) (timer s) (client s) (started s)
          (awaiting s) (promise s) (now s) (drawn s) l (trace s).

Definition record (a : Action T Unknown) (s : State) : State :=
  mkState (settled s) (ignoreClose s) (timer s) (client s) (started s)
          (awaiting s) (promise s) (now s) (drawn s) (uncaught s)
          (trace s ++ [a]).

(** ** The monad of callback bodies

    A statement reads and writes the shared state and either completes or
    throws; the writes made before a throw stay.  It also sees how the client
    behaves during the current turn of the event loop. *)

Definition M (A : Type) : Type := CloseReport -> State -> Result A * State.

Definition ret {A : Type} (a : A) : M A := fun _ s => (Ok a, s).

Definition bind {A B : Type} (m : M A) (k : A -> M B) : M B :=
  fun env s =>
    match m env s with
    | (Ok a, s') => k a env s'
    | (Throw e, s') => (Throw e, s')
    end.

Definition throw {A : Type} (e : Error) : M A := fun _ s => (Throw e, s).

(** [try { body } catch (err) { handler }] *)
Definition try_catch {A : Type} (body : M A) (handler : Error -> M A) : M A :=
  fun env s =>
    match body env s with
    | (Ok a, s') => (Ok a, s')
    | (Throw e, s') => handler e env s'
    end.

Definition gets {A : Type} (f : State -> A) : M A := fun _ s => (Ok (f s), s).

Definition modify (f : State -> State) : M unit := fun _ s => (Ok tt, f s).

Definition ask : M CloseReport := fun env s => (Ok env, s).

Notation "x <- m ;; k" := (bind m (fun x => k))
  (at level 61, m at next level, right associativity).
Notation "m ;; k" := (bind m (fun _ => k))
  (at level 61, right associativity).

(** Reading a [const] binding before its initialiser ran. *)
Definition ReferenceError (name : string) : Error :=
  mkError (String.append "Cannot access '"
            (String.append name "' before initialization")).

(** ** Collaborators *)

Definition randomUUID : M string :=
  k <- gets drawn ;;
  modify (record ARandomUUID) ;;
  modify (set_drawn (S k)) ;;
  ret (uuid_source k).

(** [a ?? b()] where the right operand is a call: it runs only when the left
    one is [undefined]. *)
Definition nullish_lazy {A : Type} (a : option A) (b : M A) : M A :=
  match a with
  | Some v => ret v
  | None => b
  end.

(** [const client = new GatewayClient({...})] *)
Definition new_GatewayClient (cfg : GatewayClientOptions) : M unit :=
  modify (record (ANewGatewayClient cfg)) ;;
  modify (set_client (Some cfg)).

(** [const timer = setTimeout(callback, ms)] *)
Definition setTimeout (ms : Z) : M unit :=
  t <- gets now ;;
  modify (record (ASetTimeout ms)) ;;
  modify (set_timer (Some (Pending (t + host_delay ms)))).

(** [clearTimeout(timer)]: a timer that already ran or was cancelled is left
    as it is. *)
Definition clearTimeout : M unit :=
  h <- gets timer ;;
  match h with
  | None => throw (ReferenceError "timer")
  | Some (Pending _) =>
      modify (record AClearTimeout) ;; modify (set_timer (Some Cleared))
  | Some _ => modify (record AClearTimeout)
  end.

Definition use_client : M unit :=
  c <- gets client ;;
  match c with
  | None => throw (ReferenceError "client")
  | Some _ => ret tt
  end.

(** [client.start()] *)
Definition client_start : M unit :=
  use_client ;;
  modify (record AClientStart) ;;
  modify (set_started true).

(** [client.request(method, params, {expectFinal})], up to the [await]. *)
Definition client_request (m : string) (p : option Unknown)
                          (ef : option bool) : M unit :=
  use_client ;;
  modify (record (AClientRequest m p ef)) ;;
  k <- gets awaiting ;;
  modify (set_awaiting (S k)).

(** The promise's own [resolve] and [reject]: only the first call counts. *)
Definition resolve (value : option T) : M unit :=
  modify (record (AResolve value)) ;;
  p <- gets promise ;;
  match p with
  | None => modify (set_promise (Some (Resolved value)))
  | Some _ => ret tt
  end.

Definition reject (err : Error) : M unit :=
  modify (record (AReject err)) ;;
  p <- gets promise ;;
  match p with
  | None => modify (set_promise (Some (Rejected err)))
  | Some _ => ret tt
  end.

(** ** The closures of [callGateway] *)

(** [ignoreClose = true;] *)
Definition assign_ignoreClose (b : bool) : M unit :=
  modify (record (ASetIgnoreClose b)) ;;
  modify (set_ignoreClose b).

(** [const stop = (err?: Error, value?: T) => {...}]; [err] is [None] for
    an argument that [if (err)] takes as false. *)
Definition stop (err : option Error) (value : option T) : M unit :=
  b <- gets settled ;;
  if b then ret tt
  else
    modify (set_settled true) ;;
    clearTimeout ;;
    match err with
    | Some e => reject e
    | None => resolve value
    end.

Definition timeout_error : Error := mkError "gateway timeout".

Definition close_error (code : Z) (reason : string) : Error :=
  mkError (String.append "gateway closed ("
            (String.append (show_number code)
              (String.append "): " reason))).

(** [onClose: (code, reason) => {...}] *)
Definition onClose (code : Z) (reason : string) : M unit :=
  b <- gets settled ;;
  i <- gets ignoreClose ;;
  if b || i then ret tt
  else stop (Some (close_error code reason)) None.

(** [client.stop()].  The client was built with the [onClose] hook; whether
    it reports the close it causes before [stop()] returns or in a later turn
    of the event loop is the client's business, so both are allowed: a report
    announced for this turn is delivered on the spot. *)
Definition client_stop : M unit :=
  use_client ;;
  modify (record AClientStop) ;;
  c <- ask ;;
  match c with
  | Some (code, reason) => onClose code reason
  | None => ret tt
  end.

Section Handlers.

Variable opts : CallGatewayOptions Unknown.

(** The [catch (err)] block of [onHelloOk]; what it catches is passed to
    [stop] unchecked. *)
Definition onHelloOk_catch (err : Reason) : M unit :=
  assign_ignoreClose true ;;
  client_stop ;;
  stop (as_Error err) None.

(** The [try] block of [onHelloOk] after the awaited request gave [result]. *)
Definition onHelloOk_then (result : T) : M unit :=
  assign_ignoreClose true ;;
  stop None (Some result) ;;
  client_stop.

(** [onHelloOk], from its call to the [await]. *)
Definition onHelloOk : M unit :=
  try_catch
    (client_request (method opts) (params opts) (expectFinal opts))
    (fun e => onHelloOk_catch (an_error e)).

(** [onHelloOk] resumed by the request's fulfilment. *)
Definition onHelloOk_fulfilled (result : T) : M unit :=
  try_catch (onHelloOk_then result) (fun e => onHelloOk_catch (an_error e)).

(** [onHelloOk] resumed by the request's rejection: the [await] throws the
    reason, which the [catch] block receives. *)
Definition onHelloOk_rejected (err : Reason) : M unit :=
  onHelloOk_catch err.

(** The callback given to [setTimeout]. *)
Definition onTimeout : M unit :=
  assign_ignoreClose true ;;
  client_stop ;;
  stop (Some timeout_error) None.

(** The object literal passed to [new GatewayClient], fields in source order;
    [randomUUID()] is its only operand with an effect. *)
Definition client_options : M GatewayClientOptions :=
  iid <- nullish_lazy (instanceId opts) randomUUID ;;
  ret {| cfg_url := url opts;
         cfg_token := token opts;
         cfg_password := password opts;
         cfg_instanceId := iid;
         cfg_clientName := clientName opts ?? "cli"%string;
         cfg_clientVersion := clientVersion opts ?? "dev"%string;
         cfg_platform := platform opts;
         cfg_mode := mode opts ?? "cli"%string;
         cfg_minProtocol := minProtocol opts ?? PROTOCOL_VERSION;
         cfg_maxProtocol := maxProtocol opts ?? PROTOCOL_VERSION |}.

(** [const timeoutMs = opts.timeoutMs ?? 10_000;] *)
Definition resolved_timeoutMs : Z := timeoutMs opts ?? 10000.

(** The synchronous part of [callGateway]: the body of the promise
    executor. *)
Definition callGateway : M unit :=
  let timeoutMs := resolved_timeoutMs in
  cfg <- client_options ;;
  new_GatewayClient cfg ;;
  setTimeout timeoutMs ;;
  client_start.

(** ** The event loop *)

Definition timer_due (s : State) : bool :=
  match timer s with
  | Some (Pending d) => d <=? now s
  | _ => false
  end.

(** Whether the host can run the event now: the client calls its hooks only
    once started; a continuation runs only for a request that is awaited; the
    timer callback runs only for a pending timer whose deadline has come. *)
Definition enabled (ev : Event T) (s : State) : bool :=
  match ev with
  | EvElapse _ => true
  | EvTimeout _ => timer_due s
  | EvHelloOk => started s
  | EvPartial _ => (0 <? awaiting s)%nat
  | EvResponse _ _ => (0 <? awaiting s)%nat
  | EvRequestError _ _ => (0 <? awaiting s)%nat
  | EvClose _ _ => started s
  end.

(** How the client answers a [stop()] made during the event's turn. *)
Definition echo_of (ev : Event T) : CloseReport :=
  match ev with
  | EvTimeout echo => echo
  | EvResponse _ echo => echo
  | EvRequestError _ echo => echo
  | _ => None
  end.

(** The code the event runs.  Partial frames stay inside the client:
    [callGateway] wires no hook for them. *)
Definition callback (ev : Event T) : M unit :=
  match ev with
  | EvElapse ms => modify (fun s => set_now (now s + Z.of_N ms) s)
  | EvTimeout _ => modify (set_timer (Some Fired)) ;; onTimeout
  | EvHelloOk => onHelloOk
  | EvPartial _ => ret tt
  | EvResponse result _ =>
      modify (fun s => set_awaiting (pred (awaiting s)) s) ;;
      onHelloOk_fulfilled result
  | EvRequestError err _ =>
      modify (fun s => set_awaiting (pred (awaiting s)) s) ;;
      onHelloOk_rejected err
  | EvClose code reason => onClose code reason
  end.

(** One turn of the event loop; an exception that leaves the callback is
    kept in [uncaught]. *)
Definition step (ev : Event T) (s : State) : option State :=
  if enabled ev s then
    match callback ev (echo_of ev) s with
    | (Ok _, s') => Some s'
    | (Throw e, s') => Some (set_uncaught (uncaught s' ++ [e]) s')
    end
  else None.

Fixpoint run (evs : list (Event T)) (s : State) : option State :=
  match evs with
  | [] => Some s
  | ev :: rest =>
      match step ev s with
      | Some s' => run rest s'
      | None => None
      end
  end.

(** State when [callGateway] has returned its promise. *)
Definition launched (t0 : Z) (n : nat) : State :=
  snd (callGateway None (initial t0 n)).

(** A call started at time [t0], after [n] earlier draws from [randomUUID],
    followed by the events [evs]. *)
Definition execution (t0 : Z) (n : nat) (evs : list (Event T)) : option State :=
  run evs (launched t0 n).

(** ** Reading a trace *)

Definition is_settle (a : Action T Unknown) : bool :=
  match a with
  | AResolve _ | AReject _ => true
  | _ => false
  end.

Definition is_resolve (a : Action T Unknown) : bool :=
  match a with
  | AResolve _ => true
  | _ => false
  end.

Definition is_reject (a : Action T Unknown) : bool :=
  match a with
  | AReject _ => true
  | _ => false
  end.

Definition is_client_stop (a : Action T Unknown) : bool :=
  match a with
  | AClientStop => true
  | _ => false
  end.

Definition is_client_start (a : Action T Unknown) : bool :=
  match a with
  | AClientStart => true
  | _ => false
  end.

Definition is_clear (a : Action T Unknown) : bool :=
  match a with
  | AClearTimeout => true
  | _ => false
  end.

Definition is_request (a : Action T Unknown) : bool :=
  match a with
  | AClientRequest _ _ _ => true
  | _ => false
  end.

Definition is_flag_write (a : Action T Unknown) : bool :=
  match a with
  | ASetIgnoreClose _ => true
  | _ => false
  end.

(** How many actions of a trace satisfy [f]. *)
Definition calls (f : Action T Unknown -> bool) (l : list (Action T Unknown)) : nat :=
  List.length (filter f l).

Definition timer_pending (s : State) : bool :=
  match timer s with
  | Some (Pending _) => true
  | _ => false
  end.

(** The way of ending the call that each callback stands for. *)
Definition kind_of (ev : Event T) : option Kind :=
  match ev with
  | EvTimeout _ => Some TimeoutFailure
  | EvResponse _ _ => Some Success
  | EvRequestError _ _ => Some ApplicationFailure
  | EvClose _ _ => Some CloseFailure
  | _ => None
  end.

(** What [stop(err as Error)] settles with, for a caught [err]. *)
Definition rejection_outcome (r : Reason) : Settlement T :=
  match as_Error r with
  | Some e => Rejected e
  | None => Resolved None
  end.

(** What the promise gets when the event's callback is the one to settle
    it. *)
Definition outcome_of (ev : Event T) : option (Settlement T) :=
  match ev with
  | EvTimeout _ => Some (Rejected timeout_error)
  | EvResponse result _ => Some (Resolved (Some result))
  | EvRequestError err _ => Some (rejection_outcome err)
  | EvClose code reason => Some (Rejected (close_error code reason))
  | _ => None
  end.

(** The callbacks by which the orchestrator itself shuts the client down. *)
Definition self_initiated (ev : Event T) : bool :=
  match ev with
  | EvTimeout _ | EvResponse _ _ | EvRequestError _ _ => true
  | _ => false
  end.

(** The events of a run during whose turn the promise was settled. *)
Fixpoint settling_events (evs : list (Event T)) (s : State) : list (Event T) :=
  match evs with
  | [] => []
  | ev :: rest =>
      match step ev s with
      | Some s' =>
          (if negb (settled s) && settled s' then [ev] else [])
            ++ settling_events rest s'
      | None => []
      end
  end.

(** ** What one turn of the event loop does

    A closed form of the callbacks above, used to state and prove the
    properties; lemma [callback_after] shows that running the callback of an
    event gives exactly [after]. *)

(** The calls of the first, and only effective, run of [stop]. *)
Definition settle_actions (s : State) (o : Settlement T) : list (Action T Unknown) :=
  if settled s then []
  else [AClearTimeout;
        match o with
        | Resolved v => AResolve v
        | Rejected e => AReject e
        end].

(** The actions a callback adds to the trace, in order. *)
Definition turn_actions (ev : Event T) (s : State) : list (Action T Unknown) :=
  match ev with
  | EvElapse _ => []
  | EvPartial _ => []
  | EvHelloOk => [AClientRequest (method opts) (params opts) (expectFinal opts)]
  | EvTimeout _ =>
      [ASetIgnoreClose true; AClientStop]
        ++ settle_actions s (Rejected timeout_error)
  | EvResponse result _ =>
      [ASetIgnoreClose true]
        ++ settle_actions s (Resolved (Some result)) ++ [AClientStop]
  | EvRequestError err _ =>
      [ASetIgnoreClose true; AClientStop]
        ++ settle_actions s (rejection_outcome err)
  | EvClose code reason =>
      if settled s || ignoreClose s then []
      else settle_actions s (Rejected (close_error code reason))
  end.

(** Appending actions to a trace one by one, as [record] does. *)
Definition emit (tr l : list (Action T Unknown)) : list (Action T Unknown) :=
  fold_left (fun acc a => acc ++ [a]) l tr.

(** Whether the event's callback settles a call that is not settled yet. *)
Definition settles (ev : Event T) (s : State) : bool :=
  match ev with
  | EvTimeout _ | EvResponse _ _ | EvRequestError _ _ => true
  | EvClose _ _ => negb (ignoreClose s)
  | _ => false
  end.

Definition cleared (t : option Timer) : option Timer :=
  match t with
  | Some (Pending _) => Some Cleared
  | _ => t
  end.

(** The state a turn leaves behind, field by field, once the bindings
    [client] and [timer] are initialised. *)
Definition after (ev : Event T) (s : State) : State :=
  let fresh := negb (settled s) && settles ev s in
  mkState
    (settled s || settles ev s)
    (ignoreClose s || self_initiated ev)
    (match ev with
     | EvTimeout _ => Some Fired
     | _ => if fresh then cleared (timer s) else timer s
     end)
    (client s)
    (started s)
    (match ev with
     | EvHelloOk => S (awaiting s)
     | EvResponse _ _ | EvRequestError _ _ => pred (awaiting s)
     | _ => awaiting s
     end)
    (if fresh
     then match promise s with
          | None => outcome_of ev
          | Some o => Some o
          end
     else promise s)
    (match ev with
     | EvElapse ms => now s + Z.of_N ms
     | _ => now s
     end)
    (drawn s)
    (uncaught s)
    (emit (trace s) (turn_actions ev s)).

(** Replays the writes to [ignoreClose] along a trace and checks that every
    [client.stop()] finds the flag set; [flag] is its value at the start. *)
Fixpoint flag_before_stop (flag : bool) (l : list (Action T Unknown)) : bool :=
  match l with
  | [] => true
  | ASetIgnoreClose b :: rest => flag_before_stop b rest
  | AClientStop :: rest => flag && flag_before_stop flag rest
  | _ :: rest => flag_before_stop flag rest
  end.

(** ** What holds between two turns of the event loop *)

Record Inv (t0 : Z) (s : State) : Prop := {
  inv_client : client s <> None;
  inv_started : started s = true;
  inv_timer :
    if settled s
    then timer s = Some Fired \/ timer s = Some Cleared
    else timer s = Some (Pending (t0 + host_delay resolved_timeoutMs));
  inv_promise :
    if settled s then promise s <> None else promise s = None;
  inv_flag : ignoreClose s = true -> settled s = true;
  inv_uncaught : uncaught s = [];
  inv_settles :
    calls is_settle (trace s) = if settled s then 1%nat else 0%nat;
  inv_clears :
    calls is_clear (trace s) = if settled s then 1%nat else 0%nat;
  inv_stops :
    ignoreClose s = false -> calls is_client_stop (trace s) = 0%nat;
  inv_writes :
    forall b, In (ASetIgnoreClose b) (trace s) -> b = true;
  inv_starts : calls is_client_start (trace s) = 1%nat;
  inv_clock : t0 <= now s;
  inv_fired :
    timer s = Some Fired -> t0 + host_delay resolved_timeoutMs <= now s
}.

End Handlers.

End CallGateway.

Arguments initial {T Unknown}.
Arguments enabled {T Unknown}.
Arguments step {T Unknown}.
Arguments run {T Unknown}.
Arguments calls {T Unknown}.
Arguments is_settle {T Unknown}.
Arguments is_resolve {T Unknown}.
Arguments is_reject {T Unknown}.
Arguments is_client_stop {T Unknown}.
Arguments is_client_start {T Unknown}.
Arguments is_clear {T Unknown}.
Arguments is_flag_write {T Unknown}.
Arguments is_request {T Unknown}.
Arguments kind_of {T}.
Arguments emit {T Unknown}.
Arguments settles {T Unknown}.
Arguments flag_before_stop {T Unknown}.
Arguments settle_actions {T Unknown}.
Arguments outcome_of {T}.
Arguments rejection_outcome {T}.
Arguments self_initiated {T}.
Arguments timer_pending {T Unknown}.
Arguments settling_events {T Unknown}.
Arguments settled {T Unknown}.
Arguments ignoreClose {T Unknown}.
Arguments timer {T Unknown}.
Arguments client {T Unknown}.
Arguments started {T Unknown}.
Arguments awaiting {T Unknown}.
Arguments promise {T Unknown}.
Arguments now {T Unknown}.
Arguments drawn {T Unknown}.
Arguments uncaught {T Unknown}.
Arguments trace {T Unknown}.

(** ** A concrete call, for examples *)

Definition sample_uuids (n : nat) : string :=
  String.append "uuid-" (show_number (Z.of_nat n)).

(** [callGateway({ method: "health", timeoutMs: 50 })] *)
Definition sample_opts : CallGatewayOptions string :=
  {| url := None; token := None; password := None;
     method := "health"; params := None; expectFinal := None;
     timeoutMs := Some 50; clientName := None; clientVersion := None;
     platform := None; mode := None; instanceId := None;
     minProtocol := None; maxProtocol := None |}.

(** [callGateway({ method: "health", timeoutMs: 0 })] *)
Definition zero_timeout_opts : CallGatewayOptions string :=
  {| url := None; token := None; password := None;
     method := "health"; params := None; expectFinal := None;
     timeoutMs := Some 0; clientName := None; clientVersion := None;
     platform := None; mode := None; instanceId := None;
     minProtocol := None; maxProtocol := None |}.

(** [callGateway({ method: "health", timeoutMs: 2147483648 })]: a deadline
    of about 25 days, one millisecond above [TIMEOUT_MAX]. *)
Definition long_timeout_opts : CallGatewayOptions string :=
  {| url := None; token := None; password := None;
     method := "health"; params := None; expectFinal := None;
     timeoutMs := Some 2147483648; clientName := None; clientVersion := None;
     platform := None; mode := None; instanceId := None;
     minProtocol := None; maxProtocol := None |}.

(** A call with nothing but the method. *)
Definition bare_opts : CallGatewayOptions string :=
  {| url := None; token := None; password := None;
     method := "health"; params := None; expectFinal := None;
     timeoutMs := None; clientName := None; clientVersion := None;
     platform := None; mode := None; instanceId := None;
     minProtocol := None; maxProtocol := None |}.

(** The sample call, made at time 1000 with a fresh generator, under
    protocol version 2. *)
Abbreviation sample_execution :=
  (execution string string 2 sample_uuids sample_opts 1000 0%nat).

(** The state the sample call is in after [evs]. *)
Definition state_after (evs : list (Event string)) : State string string :=
  match sample_execution evs with
  | Some s => s
  | None => initial 1000 0%nat
  end.

(** The handshake, then the answer to the request. *)
Definition pong_run : list (Event string) :=
  [EvHelloOk; EvResponse "pong"%string None].

(** The handshake, then the connection drops. *)
Definition dropped_run : list (Event string) :=
  [EvHelloOk; EvClose 1006 "abnormal"%string].

(** The handshake and a first partial frame, then silence. *)
Definition silent_run : list (Event string) :=
  [EvHelloOk; EvPartial "chunk"%string].

(** * The control UI static server (gateway/control-ui.ts)

    [handleControlUiHttpRequest] answers one HTTP request from files under
    the control UI root.  What it does to the [ServerResponse], and which
    file it reads, is kept as a log of calls; node:path, node:fs and the URL
    parser are the host's. *)

(** ** Strings, as JavaScript's methods use them *)

Local Open Scope string_scope.

(** [s.startsWith(p)] *)
Definition startsWith (s p : string) : bool := String.prefix p s.

(** [s.slice(n)] for [0 <= n]. *)
Fixpoint slice_from (n : nat) (s : string) : string :=
  match n, s with
  | O, _ => s
  | S n', String _ rest => slice_from n' rest
  | S _, EmptyString => EmptyString
  end.

(** [s.endsWith(p)] *)
Definition endsWith (s p : string) : bool :=
  (String.length p <=? String.length s)%nat
  && String.eqb (slice_from (String.length s - String.length p) s) p.

(** [s.slice(0, -1)] *)
Definition slice_but_last (s : string) : string :=
  String.substring 0 (String.length s - 1) s.

(** [s.includes(p)] *)
Definition includes (s p : string) : bool :=
  match String.index 0 p s with
  | Some _ => true
  | None => false
  end.

(** Truthiness of a string: only the empty one is falsy. *)
Definition truthy (s : string) : bool := negb (String.eqb s "").

(** The string with the single character NUL. *)
Definition NUL : string := String Ascii.zero EmptyString.

(** ** The host *)

Record Host := {
  (** [new URL(urlRaw, "http://localhost").pathname]; the constructor throws
      on what it cannot parse. *)
  url_pathname : string -> Result string;
  (** [path.join(a, b)] *)
  path_join : string -> string -> string;
  (** [path.resolve(...segments)] *)
  path_resolve : list string -> string;
  (** [path.extname(p)] *)
  path_extname : string -> string;
  (** [path.posix.normalize(p)] *)
  posix_normalize : string -> string;
  (** [s.toLowerCase()] *)
  toLowerCase : string -> string;
  (** [path.dirname(fileURLToPath(import.meta.url))] *)
  here : string;
  (** [path.dirname(fs.realpathSync(process.execPath))], or [None] where
      that throws. *)
  exec_dir : option string;
  (** [process.cwd()] *)
  cwd : string;
  (** [fs.existsSync(p)] *)
  existsSync : string -> bool;
  (** [fs.statSync(p).isFile()] *)
  isFile : string -> bool;
  (** [fs.readFileSync(p)]; it throws on a file it cannot read. *)
  readFileSync : string -> Result string
}.

(** What the handler does to the response, and the file it reads. *)
Inductive ResCall :=
| SetStatus (code : Z)
| SetHeader (name value : string)
| ReadFile (file : string)
| End (body : string).

(** [contentTypeForExt] *)
Definition contentTypeForExt (ext : string) : string :=
  if String.eqb ext ".html" then "text/html; charset=utf-8"
  else if String.eqb ext ".js" then "application/javascript; charset=utf-8"
  else if String.eqb ext ".css" then "text/css; charset=utf-8"
  else if String.eqb ext ".json" || String.eqb ext ".map"
       then "application/json; charset=utf-8"
  else if String.eqb ext ".svg" then "image/svg+xml"
  else if String.eqb ext ".png" then "image/png"
  else if String.eqb ext ".jpg" || String.eqb ext ".jpeg" then "image/jpeg"
  else if String.eqb ext ".ico" then "image/x-icon"
  else if String.eqb ext ".txt" then "text/plain; charset=utf-8"
  else "application/octet-stream".

Definition ASSETS_MISSING : string :=
  "Control UI assets not found. Build them with `pnpm ui:build` (or run `pnpm ui:dev` during development).".

Section ControlUi.

Variable host : Host.

(** Statements of the handler: they extend the log and complete or throw. *)
Definition Http (A : Type) : Type := list ResCall -> Result A * list ResCall.

Definition http_ret {A : Type} (a : A) : Http A := fun log => (Ok a, log).

Definition http_bind {A B : Type} (m : Http A) (k : A -> Http B) : Http B :=
  fun log =>
    match m log with
    | (Ok a, log') => k a log'
    | (Throw e, log') => (Throw e, log')
    end.

Definition http_call (c : ResCall) : Http unit := fun log => (Ok tt, (log ++ [c])%list).

(** A host call that may throw. *)
Definition http_try {A : Type} (r : Result A) : Http A := fun log => (r, log).

Notation "x <- m ;; k" := (http_bind m (fun x => k))
  (at level 61, m at next level, right associativity).
Notation "m ;; k" := (http_bind m (fun _ => k))
  (at level 61, right associativity).

(** The candidate directories, in order; [filter(Boolean)] drops the missing
    and the empty ones. *)
Definition root_candidates : list string :=
  let execDir := exec_dir host in
  filter truthy
    (app
       match execDir with
       | Some d =>
           if truthy d then [path_resolve host [d; "control-ui"]] else []
       | None => []
       end
       [path_resolve host [here host; "../control-ui"];
        path_resolve host [here host; "../../dist/control-ui"];
        path_resolve host [cwd host; "dist"; "control-ui"]]).

(** [resolveControlUiRoot] *)
Definition resolveControlUiRoot : option string :=
  find (fun dir => existsSync host (path_join host dir "index.html"))
       root_candidates.

(** [respondNotFound] *)
Definition respondNotFound : Http unit :=
  http_call (SetStatus 404) ;;
  http_call (SetHeader "Content-Type" "text/plain; charset=utf-8") ;;
  http_call (End "Not Found").

(** [serveFile]; the argument of [res.end] is read after both headers are
    set. *)
Definition serveFile (filePath : string) : Http unit :=
  let ext := toLowerCase host (path_extname host filePath) in
  http_call (SetHeader "Content-Type" (contentTypeForExt ext)) ;;
  http_call (SetHeader "Cache-Control" "no-cache") ;;
  http_call (ReadFile filePath) ;;
  body <- http_try (readFileSync host filePath) ;;
  http_call (End body).

(** [isSafeRelativePath] *)
Definition isSafeRelativePath (relPath : string) : bool :=
  if negb (truthy relPath) then false
  else
    let normalized := posix_normalize host relPath in
    if startsWith normalized "../" || String.eqb normalized ".." then false
    else if includes normalized NUL then false
    else true.

(** The file a pathname asks for, relative to the root: the [rel],
    [requested] and [fileRel] of the handler. *)
Definition requested_file (pathname : string) : string :=
  let rel :=
    if String.eqb pathname "/" then ""%string
    else if startsWith pathname "/assets/" then slice_from 1 pathname
    else slice_from 1 pathname in
  let requested :=
    if truthy rel && negb (endsWith rel "/") then rel
    else String.append rel "index.html" in
  if truthy requested then requested else "index.html"%string.

(** [req.method !== "GET" && req.method !== "HEAD"] *)
Definition method_refused (method : option string) : bool :=
  match method with
  | Some m => negb (String.eqb m "GET") && negb (String.eqb m "HEAD")
  | None => true
  end.

(** [handleControlUiHttpRequest]; [url] and [method] are [req.url] and
    [req.method], [None] for [undefined]. *)
Definition handleControlUiHttpRequest
    (url : option string) (method : option string) : Http bool :=
  match url with
  | None => http_ret false
  | Some urlRaw =>
      if negb (truthy urlRaw) then http_ret false
      else if method_refused method then
        http_call (SetStatus 405) ;;
        http_call (SetHeader "Content-Type" "text/plain; charset=utf-8") ;;
        http_call (End "Method Not Allowed") ;;
        http_ret true
      else
        pathname <- http_try (url_pathname host urlRaw) ;;
        if String.eqb pathname "/ui" || startsWith pathname "/ui/" then
          respondNotFound ;; http_ret true
        else
          match resolveControlUiRoot with
          | None =>
              http_call (SetStatus 503) ;;
              http_call (SetHeader "Content-Type" "text/plain; charset=utf-8") ;;
              http_call (End ASSETS_MISSING) ;;
              http_ret true
          | Some root =>
              if negb (truthy root) then
                http_call (SetStatus 503) ;;
                http_call (SetHeader "Content-Type" "text/plain; charset=utf-8") ;;
                http_call (End ASSETS_MISSING) ;;
                http_ret true
              else
                let fileRel := requested_file pathname in
                if negb (isSafeRelativePath fileRel) then
                  respondNotFound ;; http_ret true
                else
                  let filePath := path_join host root fileRel in
                  if negb (startsWith filePath root) then
                    respondNotFound ;; http_ret true
                  else if existsSync host filePath && isFile host filePath then
                    serveFile filePath ;; http_ret true
                  else
                    let indexPath := path_join host root "index.html" in
                    if existsSync host indexPath then
                      serveFile indexPath ;; http_ret true
                    else
                      respondNotFound ;; http_ret true
          end
  end.

(** ** Reading the log *)

Definition is_end (c : ResCall) : bool :=
  match c with
  | End _ => true
  | _ => false
  end.

Definition is_read (c : ResCall) : bool :=
  match c with
  | ReadFile _ => true
  | _ => false
  end.

Definition is_status (c : ResCall) : bool :=
  match c with
  | SetStatus _ => true
  | _ => false
  end.

End ControlUi.

(** A host for examples: one root, [/srv/ui], holding [index.html] and
    [assets/app.js]; paths are joined with a slash and the URL is its own
    pathname. *)
Definition sample_host : Host :=
  {| url_pathname := fun u => Ok u;
     path_join := fun a b => String.append a (String.append "/" b);
     path_resolve := fun _ => "/srv/ui"%string;
     path_extname := fun p =>
       if endsWith p ".js" then ".js"%string
       else if endsWith p ".html" then ".html"%string
       else ""%string;
     posix_normalize := fun p => p;
     toLowerCase := fun s => s;
     here := "/srv/dist/gateway"%string;
     exec_dir := None;
     cwd := "/srv"%string;
     existsSync := fun p =>
       String.eqb p "/srv/ui/index.html" || String.eqb p "/srv/ui/assets/app.js";
     isFile := fun p =>
       String.eqb p "/srv/ui/index.html" || String.eqb p "/srv/ui/assets/app.js";
     readFileSync := fun p =>
       if String.eqb p "/srv/ui/index.html" then Ok "<html>"%string
       else if String.eqb p "/srv/ui/assets/app.js" then Ok "js"%string
       else Throw (mkError "ENOENT") |}.

(** * Tab routes of the control UI (ui/navigation.ts) *)

Inductive Tab :=
| overview
| connections
| instances
| sessions
| cron
| skills
| nodes
| chat
| config
| debug.

(** [TAB_GROUPS] *)
Definition TAB_GROUPS : list (string * list Tab) :=
  [("Chat", [chat]);
   ("Control", [overview; connections; instances; sessions; cron]);
   ("Agent", [skills; nodes]);
   ("Settings", [config; debug])].

(** [TAB_PATHS] *)
Definition TAB_PATHS (tab : Tab) : string :=
  match tab with
  | overview => "/overview"
  | connections => "/connections"
  | instances => "/instances"
  | sessions => "/sessions"
  | cron => "/cron"
  | skills => "/skills"
  | nodes => "/nodes"
  | chat => "/chat"
  | config => "/config"
  | debug => "/debug"
  end.

(** The keys of [TAB_PATHS], in the order of the object literal. *)
Definition TAB_KEYS : list Tab :=
  [overview; connections; instances; sessions; cron; skills; nodes; chat;
   config; debug].

(** A [Map] with string keys: [set] replaces the value of a key that is
    there and appends a new key. *)
Fixpoint map_set {V : Type} (k : string) (v : V) (m : list (string * V))
  : list (string * V) :=
  match m with
  | [] => [(k, v)]
  | (k', v') :: rest =>
      if String.eqb k k' then (k, v) :: rest else (k', v') :: map_set k v rest
  end.

Fixpoint map_get {V : Type} (k : string) (m : list (string * V)) : option V :=
  match m with
  | [] => None
  | (k', v') :: rest => if String.eqb k k' then Some v' else map_get k rest
  end.

(** [new Map(entries)] *)
Definition new_Map {V : Type} (entries : list (string * V)) : list (string * V) :=
  fold_left (fun m e => map_set (fst e) (snd e) m) entries [].

(** [PATH_TO_TAB] *)
Definition PATH_TO_TAB : list (string * Tab) :=
  new_Map (map (fun tab => (TAB_PATHS tab, tab)) TAB_KEYS).

Section Navigation.

(** [s.trim()] and [s.toLowerCase()], the JavaScript engine's. *)
Variable trim : string -> string.
Variable lower : string -> string.

(** [normalizeBasePath] *)
Definition normalizeBasePath (basePath : string) : string :=
  if negb (truthy basePath) then ""
  else
    let base := trim basePath in
    let base := if negb (startsWith base "/") then String.append "/" base else base in
    if String.eqb base "/" then ""
    else
      let base := if endsWith base "/" then slice_but_last base else base in
      base.

(** [normalizePath] *)
Definition normalizePath (path : string) : string :=
  if negb (truthy path) then "/"
  else
    let normalized := trim path in
    let normalized :=
      if negb (startsWith normalized "/") then String.append "/" normalized
      else normalized in
    let normalized :=
      if (1 <? String.length normalized)%nat && endsWith normalized "/"
      then slice_but_last normalized
      else normalized in
    normalized.

(** [pathForTab(tab, basePath = "")]; [None] is an omitted [basePath]. *)
Definition pathForTab (tab : Tab) (basePath : option string) : string :=
  let base := normalizeBasePath (basePath ?? "") in
  let path := TAB_PATHS tab in
  if truthy base then String.append base path else path.

(** [tabFromPath(pathname, basePath = "")] *)
Definition tabFromPath (pathname : string) (basePath : option string) : option Tab :=
  let base := normalizeBasePath (basePath ?? "") in
  let path := if truthy pathname then pathname else "/" in
  let path :=
    if truthy base then
      if String.eqb path base then "/"
      else if startsWith path (String.append base "/")
           then slice_from (String.length base) path
           else path
    else path in
  let normalized := lower (normalizePath path) in
  let normalized := if endsWith normalized "/index.html" then "/" else normalized in
  if String.eqb normalized "/" then Some chat
  else map_get normalized PATH_TO_TAB.

End Navigation.

(** An engine for examples: [trim] strips blanks, [toLowerCase] lowers the
    letters A to Z. *)
Fixpoint trim_start_blanks (s : string) : string :=
  match s with
  | String (Ascii.Ascii false false false false false true false false) rest =>
      trim_start_blanks rest
  | _ => s
  end.

Fixpoint reverse_string (acc s : string) : string :=
  match s with
  | EmptyString => acc
  | String c rest => reverse_string (String c acc) rest
  end.

Definition sample_trim (s : string) : string :=
  reverse_string "" (trim_start_blanks (reverse_string "" (trim_start_blanks s))).

Definition lower_letter (c : Ascii.ascii) : Ascii.ascii :=
  let n := Ascii.nat_of_ascii c in
  if (65 <=? n)%nat && (n <=? 90)%nat then Ascii.ascii_of_nat (n + 32) else c.

Fixpoint sample_lower (s : string) : string :=
  match s with
  | EmptyString => EmptyString
  | String c rest => String (lower_letter c) (sample_lower rest)
  end.

Local Close Scope string_scope.

(** * Properties *)

Section Properties.

Variable T : Type.
Variable Unknown : Type.
Variable PROTOCOL_VERSION : Z.
Variable uuid_source : nat -> string.
Variable opts : CallGatewayOptions Unknown.

Local Abbreviation State := (State T Unknown).
Local Abbreviation Action := (Action T Unknown).
Local Abbreviation step := (step opts).
Local Abbreviation run := (run opts).
Local Abbreviation launched := (launched T Unknown PROTOCOL_VERSION uuid_source opts).
Local Abbreviation execution := (execution T Unknown PROTOCOL_VERSION uuid_source opts).
Local Abbreviation deadline t0 :=
  (t0 + host_delay (resolved_timeoutMs Unknown opts)).
Local Abbreviation Inv := (Inv T Unknown opts).
Local Abbreviation turn_actions := (turn_actions T Unknown opts).
Local Abbreviation after := (after T Unknown opts).
Local Abbreviation callback := (callback T Unknown opts).

(** ** Counting in traces *)

Lemma calls_app (f : Action -> bool) (l1 l2 : list Action) :
  calls f (l1 ++ l2) = (calls f l1 + calls f l2)%nat.
Proof.
  unfold calls. rewrite filter_app, length_app. reflexivity.
Qed.

Lemma calls_snoc (f : Action -> bool) (l : list Action) (a : Action) :
  calls f (l ++ [a]) = (calls f l + (if f a then 1 else 0))%nat.
Proof.
  rewrite calls_app. unfold calls. cbn. destruct (f a); reflexivity.
Qed.

Lemma run_cons (ev : Event T) (evs : list (Event T)) (s : State) :
  run (ev :: evs) s =
  match step ev s with
  | Some s' => run evs s'
  | None => None
  end.
Proof. reflexivity. Qed.

Lemma run_app (evs1 evs2 : list (Event T)) (s : State) :
  run (evs1 ++ evs2) s =
  match run evs1 s with
  | Some s' => run evs2 s'
  | None => None
  end.
Proof.
  revert s. induction evs1 as [|ev evs1 IH]; intros s; cbn.
  - reflexivity.
  - destruct (step ev s) as [s'|]; [apply IH | reflexivity].
Qed.

Lemma callGateway_returns (t0 : Z) (n : nat) :
  fst (callGateway T Unknown PROTOCOL_VERSION uuid_source opts None (initial t0 n))
  = Ok tt.
Proof.
  unfold callGateway, client_options, nullish_lazy.
  destruct (instanceId opts); reflexivity.
Qed.

Lemma launched_inv (t0 : Z) (n : nat) : Inv t0 (launched t0 n).
Proof.
  unfold launched, callGateway, client_options, nullish_lazy.
  destruct (instanceId opts); cbn;
    (constructor; cbn; try reflexivity; try discriminate; try lia;
     intros b Hb; repeat (destruct Hb as [Hb|Hb]; try discriminate); contradiction).
Qed.

Lemma emit_app (tr l : list Action) : emit tr l = tr ++ l.
Proof.
  unfold emit. revert tr.
  induction l as [|a l IH]; intros tr; cbn.
  - symmetry. apply app_nil_r.
  - rewrite IH, <- app_assoc. reflexivity.
Qed.

(** ** A turn in closed form *)

Lemma callback_after (ev : Event T) (s : State) :
  client s <> None -> timer s <> None ->
  callback ev (echo_of T ev) s = (Ok tt, after ev s).
Proof.
  destruct s as [st ig tm cl sd aw pr nw dr un tr]; cbn [client timer].
  intros Hc Ht.
  destruct cl as [cfg|]; [ | congruence].
  destruct tm as [tm|]; [ | congruence].
  clear Hc Ht.
  destruct ev as [ms|echo| |p|r echo|[e|] echo|code reason];
    try destruct echo as [[c rsn]|];
    try reflexivity;
    destruct st, ig, tm, pr; reflexivity.
Qed.

Lemma step_after (ev : Event T) (s : State) :
  client s <> None -> timer s <> None ->
  step ev s = if enabled ev s then Some (after ev s) else None.
Proof.
  intros Hc Ht. unfold step.
  rewrite (callback_after ev s Hc Ht). reflexivity.
Qed.

Lemma timer_due_inv (s : State) :
  timer_due T Unknown s = true ->
  exists d, timer s = Some (Pending d) /\ d <= now s.
Proof.
  unfold timer_due. destruct (timer s) as [[d| |]|]; try discriminate.
  intros H. exists d. split; [reflexivity | apply Z.leb_le, H].
Qed.

#[local] Arguments calls : simpl never.

Lemma calls_nil (f : Action -> bool) : calls f [] = 0%nat.
Proof. reflexivity. Qed.

Lemma calls_cons (f : Action -> bool) (a : Action) (l : list Action) :
  calls f (a :: l) = ((if f a then 1 else 0) + calls f l)%nat.
Proof. unfold calls. cbn. destruct (f a); reflexivity. Qed.

(** Counts over the few actions of one turn. *)
Ltac count_turn :=
  rewrite ?emit_app, ?calls_app, ?calls_cons, ?calls_nil;
  cbn [is_settle is_clear is_client_stop is_client_start is_flag_write
       is_resolve is_reject].

Ltac in_turn H :=
  rewrite emit_app in H; apply in_app_or in H; destruct H as [H|H];
  [ | cbn in H;
      repeat (destruct H as [H|H];
              [ try discriminate H; try (inversion H; reflexivity) | ]);
      try contradiction ].

Lemma after_inv (t0 : Z) (ev : Event T) (s : State) :
  Inv t0 s -> enabled ev s = true -> Inv t0 (after ev s).
Proof.
  intros [Hcl Hsd Htm Hpr Hfl Hun Hse Hclr Hsp Hwr Hsta Hck Hfi] Hen.
  destruct (settled s) eqn:Hst.
  - (* already settled: nothing but the flag and the trace can change *)
    assert (Hnd : timer_due T Unknown s = false).
    { unfold timer_due. destruct Htm as [E|E]; rewrite E; reflexivity. }
    destruct ev as [ms|echo| |p|r echo|[e|] echo|code reason];
      try (cbn in Hen; congruence);
      (constructor;
       cbn [after settled ignoreClose timer client started promise now
            uncaught trace turn_actions settles self_initiated
            rejection_outcome as_Error];
       unfold settle_actions; rewrite ?Hst; cbn [orb andb negb app];
       try assumption; try reflexivity; try lia;
       try (count_turn; lia);
       try (intros _; count_turn; lia);
       try (intros b Hb; in_turn Hb; auto)).
    all: try (intros Hig; count_turn; specialize (Hsp Hig); lia).
    all: try (destruct (ignoreClose s); cbn;
              first [assumption | intros Hig; count_turn; specialize (Hsp Hig); lia
                    | intros b Hb; in_turn Hb; auto | count_turn; lia]).
    all: intros E; specialize (Hfi E); lia.
  - (* not settled yet *)
    assert (Hig : ignoreClose s = false).
    { destruct (ignoreClose s); [specialize (Hfl eq_refl); discriminate | reflexivity]. }
    specialize (Hsp Hig).
    destruct ev as [ms|echo| |p|r echo|[e|] echo|code reason];
      (constructor;
       cbn [after settled ignoreClose timer client started promise now
            uncaught trace turn_actions settles self_initiated outcome_of
            rejection_outcome as_Error];
       unfold settle_actions; rewrite ?Hst, ?Hig, ?Htm, ?Hpr;
       cbn [orb andb negb app cleared];
       try assumption; try reflexivity; try discriminate; try lia;
       try (left; reflexivity); try (right; reflexivity);
       try (count_turn; lia);
       try (intros; discriminate);
       try (intros _; count_turn; lia);
       try (intros b Hb; in_turn Hb; auto)).
    all: try (cbn in Hen; apply timer_due_inv in Hen;
              destruct Hen as [d [E Hd]]; rewrite Htm in E;
              inversion E; subst d; intros _; exact Hd).
    all: intros E; first [discriminate E | rewrite Htm in E; discriminate E].
Qed.

Lemma inv_bindings (t0 : Z) (s : State) :
  Inv t0 s -> client s <> None /\ timer s <> None.
Proof.
  intros H. split; [apply (inv_client _ _ _ _ _ H) | ].
  pose proof (inv_timer _ _ _ _ _ H) as Ht.
  destruct (settled s); [destruct Ht as [E|E] | ]; rewrite ?E, ?Ht; discriminate.
Qed.

Lemma step_inv (t0 : Z) (ev : Event T) (s s' : State) :
  Inv t0 s -> step ev s = Some s' ->
  enabled ev s = true /\ s' = after ev s /\ Inv t0 s'.
Proof.
  intros HI Hs.
  destruct (inv_bindings t0 s HI) as [Hc Ht].
  rewrite (step_after ev s Hc Ht) in Hs.
  destruct (enabled ev s) eqn:He; [ | discriminate].
  inversion Hs; subst s'.
  split; [reflexivity | split; [reflexivity | apply after_inv; assumption]].
Qed.

Lemma step_enabled (t0 : Z) (ev : Event T) (s : State) :
  Inv t0 s -> enabled ev s = true -> step ev s = Some (after ev s).
Proof.
  intros HI He.
  destruct (inv_bindings t0 s HI) as [Hc Ht].
  rewrite (step_after ev s Hc Ht), He. reflexivity.
Qed.

Lemma run_inv (t0 : Z) (evs : list (Event T)) (s s' : State) :
  Inv t0 s -> run evs s = Some s' -> Inv t0 s'.
Proof.
  revert s. induction evs as [|ev evs IH]; intros s HI Hr; cbn in Hr.
  - inversion Hr; subst; assumption.
  - destruct (step ev s) as [s1|] eqn:Hs; [ | discriminate].
    apply (IH s1); [ | assumption].
    apply (step_inv t0 ev s s1 HI Hs).
Qed.

Lemma execution_inv (t0 : Z) (n : nat) (evs : list (Event T)) (s : State) :
  execution t0 n evs = Some s -> Inv t0 s.
Proof.
  unfold execution. apply run_inv, launched_inv.
Qed.

(** Between turns the flag is never ahead of [settled]. *)
Lemma inv_unsettled (t0 : Z) (s : State) :
  Inv t0 s -> settled s = false ->
  ignoreClose s = false /\ promise s = None /\
  timer s = Some (Pending (deadline t0)).
Proof.
  intros HI Hst.
  pose proof (inv_flag _ _ _ _ _ HI) as Hfl.
  pose proof (inv_promise _ _ _ _ _ HI) as Hpr.
  pose proof (inv_timer _ _ _ _ _ HI) as Htm.
  rewrite Hst in *.
  repeat split; try assumption.
  destruct (ignoreClose s); [specialize (Hfl eq_refl); discriminate | reflexivity].
Qed.

Lemma calls_settle_split (l : list Action) :
  calls is_settle l = (calls is_resolve l + calls is_reject l)%nat.
Proof.
  induction l as [|a l IH]; [reflexivity | ].
  rewrite !calls_cons, IH. destruct a; cbn; lia.
Qed.

(** ** Which turn settles the call *)

Lemma after_settling (t0 : Z) (ev : Event T) (s : State) :
  Inv t0 s -> settled s = false -> enabled ev s = true ->
  (settled (after ev s) = false /\ kind_of ev = None) \/
  (settled (after ev s) = true /\ kind_of ev <> None /\
   promise (after ev s) = outcome_of ev).
Proof.
  intros HI Hst He.
  destruct (inv_unsettled t0 s HI Hst) as [Hig [Hpr Htm]].
  destruct ev as [ms|echo| |p|r echo|e echo|code reason];
    cbn [after settled promise settles kind_of outcome_of];
    rewrite ?Hst, ?Hig, ?Hpr; cbn [orb andb negb];
    first [ left; split; reflexivity
          | right; repeat split; discriminate ].
Qed.

Lemma after_settled (ev : Event T) (s : State) :
  settled s = true ->
  settled (after ev s) = true /\ promise (after ev s) = promise s.
Proof.
  intros Hst. cbn [after settled promise]. rewrite Hst. split; reflexivity.
Qed.

Lemma settling_events_settled (t0 : Z) (evs : list (Event T)) (s s' : State) :
  Inv t0 s -> settled s = true -> run evs s = Some s' ->
  settling_events opts evs s = [] /\ promise s' = promise s /\ settled s' = true.
Proof.
  revert s. induction evs as [|ev evs IH]; intros s HI Hst Hr; cbn in Hr |- *.
  - inversion Hr; subst. repeat split; assumption.
  - destruct (step ev s) as [s1|] eqn:Hs; [ | discriminate].
    destruct (step_inv t0 ev s s1 HI Hs) as [He [E HI1]].
    destruct (after_settled ev s Hst) as [Hst1 Hpr1]. rewrite <- E in *.
    destruct (IH s1 HI1 Hst1 Hr) as [A [B C]].
    rewrite A, B, Hst, Hpr1. repeat split; assumption.
Qed.

Lemma settling_events_unsettled (t0 : Z) (evs : list (Event T)) (s s' : State) :
  Inv t0 s -> settled s = false -> run evs s = Some s' ->
  (settled s' = false /\ promise s' = None /\ settling_events opts evs s = []) \/
  (exists ev, settling_events opts evs s = [ev] /\ In ev evs /\
              kind_of ev <> None /\ promise s' = outcome_of ev /\
              settled s' = true).
Proof.
  revert s. induction evs as [|ev evs IH]; intros s HI Hst Hr; cbn in Hr |- *.
  - inversion Hr; subst. left.
    destruct (inv_unsettled t0 s' HI Hst) as [_ [Hpr _]]. repeat split; assumption.
  - destruct (step ev s) as [s1|] eqn:Hs; [ | discriminate].
    destruct (step_inv t0 ev s s1 HI Hs) as [He [E HI1]].
    rewrite Hst. cbn [negb andb].
    destruct (after_settling t0 ev s HI Hst He) as [[Hst1 Hk]|[Hst1 [Hk Hpr1]]];
      rewrite <- E in *; rewrite Hst1.
    + destruct (IH s1 HI1 Hst1 Hr) as [[A [B C]]|[ev' [A [B [C [D F]]]]]].
      * left. repeat split; assumption.
      * right. exists ev'. repeat split; try assumption. right; assumption.
    + destruct (settling_events_settled t0 evs s1 s' HI1 Hst1 Hr) as [A [B C]].
      right. exists ev. rewrite A. repeat split; try assumption.
      * left; reflexivity.
      * rewrite B. assumption.
Qed.

(** ** The state [callGateway] returns in *)

Lemma launched_state (t0 : Z) (n : nat) :
  settled (launched t0 n) = false /\
  ignoreClose (launched t0 n) = false /\
  promise (launched t0 n) = None /\
  now (launched t0 n) = t0 /\
  timer (launched t0 n) = Some (Pending (deadline t0)) /\
  started (launched t0 n) = true.
Proof.
  unfold launched, callGateway, client_options, nullish_lazy.
  destruct (instanceId opts); repeat split; reflexivity.
Qed.

(** ** The timer callback *)

Lemma timeout_turn (t0 : Z) (echo : CloseReport) (s : State) :
  Inv t0 s -> settled s = false -> deadline t0 <= now s ->
  step (EvTimeout echo) s = Some (after (EvTimeout echo) s) /\
  settled (after (EvTimeout echo) s) = true /\
  ignoreClose (after (EvTimeout echo) s) = true /\
  now (after (EvTimeout echo) s) = now s /\
  promise (after (EvTimeout echo) s) = Some (Rejected timeout_error) /\
  trace (after (EvTimeout echo) s) =
    trace s ++ [ASetIgnoreClose true; AClientStop; AClearTimeout;
                AReject timeout_error] /\
  calls is_client_stop (trace (after (EvTimeout echo) s)) = 1%nat.
Proof.
  intros HI Hst Hd.
  destruct (inv_unsettled t0 s HI Hst) as [Hig [Hpr Htm]].
  assert (He : enabled (EvTimeout echo) s = true).
  { cbn. unfold timer_due. rewrite Htm. apply Z.leb_le, Hd. }
  split; [apply (step_enabled t0), He; assumption | ].
  cbn [after settled ignoreClose now promise trace turn_actions settles
       self_initiated outcome_of].
  unfold settle_actions. rewrite Hst, Hpr, emit_app. cbn [orb andb negb app].
  rewrite orb_true_r.
  repeat split.
  rewrite calls_app, (inv_stops _ _ _ _ _ HI Hig). reflexivity.
Qed.

Lemma timeout_needs_deadline (t0 : Z) (echo : CloseReport) (s s' : State) :
  Inv t0 s -> step (EvTimeout echo) s = Some s' ->
  settled s = false /\ deadline t0 <= now s.
Proof.
  intros HI Hs.
  destruct (step_inv t0 _ s s' HI Hs) as [He _].
  cbn in He. apply timer_due_inv in He. destruct He as [d [E Hd]].
  pose proof (inv_timer _ _ _ _ _ HI) as Htm.
  destruct (settled s).
  - destruct Htm as [F|F]; rewrite F in E; discriminate.
  - rewrite Htm in E. inversion E; subst d. split; [reflexivity | assumption].
Qed.

Lemma elapse_turn (t0 : Z) (ms : N) (s : State) :
  Inv t0 s ->
  step (EvElapse ms) s = Some (after (EvElapse ms) s) /\
  settled (after (EvElapse ms) s) = settled s /\
  now (after (EvElapse ms) s) = now s + Z.of_N ms /\
  Inv t0 (after (EvElapse ms) s).
Proof.
  intros HI.
  assert (He : enabled (EvElapse ms) s = true) by reflexivity.
  split; [apply (step_enabled t0), He; assumption | ].
  split; [ | split; [reflexivity | apply after_inv; assumption]].
  cbn [after settled settles]. apply orb_false_r.
Qed.

(** Waiting until the deadline and letting the timer callback run settles a
    call that nothing else has settled. *)
Lemma timer_settles (t0 : Z) (ms : N) (echo : CloseReport) (s : State) :
  Inv t0 s -> settled s = false -> deadline t0 <= now s + Z.of_N ms ->
  exists s',
    run [EvElapse ms; EvTimeout echo] s = Some s' /\
    settled s' = true /\
    promise s' = Some (Rejected timeout_error) /\
    calls is_client_stop (trace s') = 1%nat /\
    Inv t0 s'.
Proof.
  intros HI Hst Hd.
  destruct (elapse_turn t0 ms s HI) as [Hs1 [Hst1 [Hn1 HI1]]].
  rewrite Hst in Hst1. rewrite <- Hn1 in Hd.
  destruct (timeout_turn t0 echo _ HI1 Hst1 Hd) as [Hs2 [A [B [C [D [E F]]]]]].
  exists (after (EvTimeout echo) (after (EvElapse ms) s)).
  split; [rewrite run_cons, Hs1, run_cons, Hs2; reflexivity | ].
  do 3 (split; [assumption | ]).
  apply after_inv; [assumption | ].
  destruct (step_inv t0 _ _ _ HI1 Hs2) as [He _]. exact He.
Qed.

(** C1: every invocation of callGateway settles its promise exactly once.
    In every execution the promise's resolve and reject are called at most
    once in total, and exactly once as soon as the call is settled; the turn
    that settles it is one single event, of one of the four kinds (success,
    timeout, close failure, application failure), and the promise holds what
    that event brings.  A call that is not settled still has its timer
    pending, and letting the deadline pass and the timer callback run settles
    it, whatever else did or did not happen. *)
Theorem callGateway_settles_exactly_once
    (t0 : Z) (n : nat) (evs : list (Event T)) (s : State) :
  execution t0 n evs = Some s ->
  (calls is_resolve (trace s) + calls is_reject (trace s) <= 1)%nat /\
  (calls is_resolve (trace s) + calls is_reject (trace s))%nat
    = (if settled s then 1%nat else 0%nat) /\
  timer_pending s = negb (settled s) /\
  match promise s with
  | Some o =>
      settled s = true /\
      exists ev k,
        settling_events opts evs (launched t0 n) = [ev] /\ In ev evs /\
        kind_of ev = Some k /\ outcome_of ev = Some o
  | None =>
      settled s = false /\ settling_events opts evs (launched t0 n) = []
  end /\
  (settled s = false ->
   forall (ms : N) (echo : CloseReport),
     deadline t0 <= now s + Z.of_N ms ->
     exists s',
       run [EvElapse ms; EvTimeout echo] s = Some s' /\
       promise s' = Some (Rejected timeout_error) /\
       (calls is_resolve (trace s') + calls is_reject (trace s'))%nat = 1%nat).
Proof.
  intros Hx.
  pose proof (execution_inv t0 n evs s Hx) as HI.
  pose proof (inv_settles _ _ _ _ _ HI) as Hse.
  rewrite calls_settle_split in Hse.
  split; [rewrite Hse; destruct (settled s); lia | ].
  split; [exact Hse | ].
  split.
  { pose proof (inv_timer _ _ _ _ _ HI) as Htm. unfold timer_pending.
    destruct (settled s); [destruct Htm as [E|E] | ]; rewrite ?E, ?Htm; reflexivity. }
  split.
  { destruct (launched_state t0 n) as [Hl _].
    destruct (settling_events_unsettled t0 evs _ s (launched_inv t0 n) Hl Hx)
      as [[A [B C]]|[ev [A [B [C [D E]]]]]].
    - rewrite B. split; assumption.
    - rewrite D.
      destruct (kind_of ev) as [k|] eqn:Hk; [ | congruence].
      destruct (outcome_of ev) as [o|] eqn:Ho;
        [ | destruct ev; discriminate].
      split; [assumption | ]. exists ev, k. repeat split; assumption. }
  intros Hst ms echo Hd.
  destruct (timer_settles t0 ms echo s HI Hst Hd) as [s' [A [B [C [D HI']]]]].
  exists s'. split; [assumption | split; [assumption | ]].
  pose proof (inv_settles _ _ _ _ _ HI') as Hse'.
  rewrite calls_settle_split, B in Hse'. exact Hse'.
Qed.

(** ** Facts carried along a run *)

Lemma run_preserves (t0 : Z) (P : State -> Prop) :
  (forall ev s, Inv t0 s -> P s -> enabled ev s = true -> P (after ev s)) ->
  forall evs s s', Inv t0 s -> P s -> run evs s = Some s' -> P s'.
Proof.
  intros Hstep evs.
  induction evs as [|ev evs IH]; intros s s' HI HP Hr; cbn in Hr.
  - inversion Hr; subst; assumption.
  - destruct (step ev s) as [s1|] eqn:Hs; [ | discriminate].
    destruct (step_inv t0 ev s s1 HI Hs) as [He [E HI1]]. subst s1.
    apply (IH (after ev s)); auto.
Qed.

Lemma trace_after (ev : Event T) (s : State) :
  trace (after ev s) = trace s ++ turn_actions ev s.
Proof. cbn [after trace]. apply emit_app. Qed.

Lemma flag_before_stop_app (l1 l2 : list Action) (f : bool) :
  flag_before_stop f l1 = true ->
  (forall b, flag_before_stop b l2 = true) ->
  flag_before_stop f (l1 ++ l2) = true.
Proof.
  revert f. induction l1 as [|a l1 IH]; intros f H1 H2; cbn.
  - apply H2.
  - destruct a; cbn in H1 |- *; try (apply IH; assumption).
    apply andb_true_iff in H1. destruct H1 as [Hf H1].
    subst f. cbn. apply IH; assumption.
Qed.

Lemma turn_flag_before_stop (ev : Event T) (s : State) (b : bool) :
  flag_before_stop b (turn_actions ev s) = true.
Proof.
  destruct ev as [ms|echo| |p|r echo|[e|] echo|code reason];
    cbn [turn_actions]; unfold settle_actions;
    destruct (settled s); try destruct (ignoreClose s); reflexivity.
Qed.

Lemma flag_before_stop_run (t0 : Z) (n : nat) (evs : list (Event T)) (s : State) :
  execution t0 n evs = Some s -> flag_before_stop false (trace s) = true.
Proof.
  unfold execution.
  apply (run_preserves t0 (fun s => flag_before_stop false (trace s) = true)).
  - intros ev s0 _ HP _. rewrite trace_after.
    apply flag_before_stop_app; [assumption | ].
    intros b. apply turn_flag_before_stop.
  - apply launched_inv.
  - unfold launched, callGateway, client_options, nullish_lazy.
    destruct (instanceId opts); reflexivity.
Qed.

(** C2 (as amended): no client.stop() call is made before the callback that
    settles the call runs.  When that callback is one of the orchestrator's
    own shutdown paths (request resolved, request rejected, timer fired), it
    calls client.stop() exactly once; when it is an unexpected close, it
    calls client.stop() not at all.  On settlement via any path the timer is
    cleared: clearTimeout is not called before the settling callback, is
    called exactly once by it, and is never called again, so that in every
    later state of the execution it has been called exactly once and the
    timer is not pending. *)
Theorem settling_turn_clears_timer_and_stops_client
    (t0 : Z) (n : nat) (evs : list (Event T)) (s s' : State) (ev : Event T) :
  execution t0 n evs = Some s ->
  step ev s = Some s' ->
  settled s = false ->
  settled s' = true ->
  calls is_client_stop (trace s) = 0%nat /\
  calls is_clear (trace s) = 0%nat /\
  calls is_clear (trace s') = 1%nat /\
  timer_pending s' = false /\
  (self_initiated ev = true -> calls is_client_stop (trace s') = 1%nat) /\
  (self_initiated ev = false -> calls is_client_stop (trace s') = 0%nat) /\
  (forall (later : list (Event T)) (s'' : State),
      run later s' = Some s'' ->
      settled s'' = true /\
      calls is_clear (trace s'') = 1%nat /\
      timer_pending s'' = false).
Proof.
  intros Hx Hs Hst Hst'.
  pose proof (execution_inv t0 n evs s Hx) as HI.
  destruct (step_inv t0 ev s s' HI Hs) as [He [E HI']].
  destruct (inv_unsettled t0 s HI Hst) as [Hig [Hpr Htm]].
  pose proof (inv_stops _ _ _ _ _ HI Hig) as Hsp.
  pose proof (inv_clears _ _ _ _ _ HI) as Hc. rewrite Hst in Hc.
  pose proof (inv_clears _ _ _ _ _ HI') as Hc'. rewrite Hst' in Hc'.
  pose proof (inv_timer _ _ _ _ _ HI') as Htm'. rewrite Hst' in Htm'.
  do 3 (split; [assumption | ]).
  split.
  { unfold timer_pending. destruct Htm' as [F|F]; rewrite F; reflexivity. }
  split; [ | split].
  - intros Hself. subst s'. rewrite trace_after, calls_app, Hsp.
    destruct ev as [ms|echo| |p|r echo|[e|] echo|code reason];
      try discriminate Hself;
      cbn [turn_actions]; unfold settle_actions; rewrite Hst; reflexivity.
  - intros Hself. rewrite E in Hst'. subst s'.
    rewrite trace_after, calls_app, Hsp.
    destruct ev as [ms|echo| |p|r echo|e echo|code reason];
      try discriminate Hself;
      try (cbn [after settled settles] in Hst';
           rewrite Hst in Hst'; discriminate Hst').
    cbn [turn_actions]; unfold settle_actions; rewrite Hst, Hig; reflexivity.
  - intros later s'' Hr.
    pose proof (run_inv t0 later s' s'' HI' Hr) as HI''.
    destruct (settling_events_settled t0 later s' s'' HI' Hst' Hr)
      as [_ [_ Hst'']].
    pose proof (inv_clears _ _ _ _ _ HI'') as Hc''. rewrite Hst'' in Hc''.
    pose proof (inv_timer _ _ _ _ _ HI'') as Htm''. rewrite Hst'' in Htm''.
    split; [assumption | split; [assumption | ]].
    unfold timer_pending. destruct Htm'' as [F|F]; rewrite F; reflexivity.
Qed.

(** C3: on each of the orchestrator's own shutdown paths (timer fired,
    request resolved, request rejected) the turn first writes true to
    ignoreClose and only later calls client.stop(); nothing else in the turn
    writes the flag or stops the client.  Replaying any execution's trace,
    every client.stop() finds the flag already set.  A close that the client
    reports from inside stop() therefore does not settle the call: the
    promise gets what the turn's own path brings. *)
Theorem flag_set_before_client_stop
    (t0 : Z) (n : nat) (evs : list (Event T)) (s s' : State) (ev : Event T) :
  execution t0 n evs = Some s ->
  step ev s = Some s' ->
  self_initiated ev = true ->
  (exists mid post,
      trace s' = trace s ++ ASetIgnoreClose true :: mid ++ AClientStop :: post /\
      calls is_flag_write (mid ++ post) = 0%nat /\
      calls is_client_stop (mid ++ post) = 0%nat) /\
  flag_before_stop false (trace s') = true /\
  ignoreClose s' = true /\
  (settled s = false -> promise s' = outcome_of ev).
Proof.
  intros Hx Hs Hself.
  pose proof (execution_inv t0 n evs s Hx) as HI.
  destruct (step_inv t0 ev s s' HI Hs) as [He [E HI']].
  split.
  { subst s'. rewrite trace_after.
    destruct ev as [ms|echo| |p|r echo|e echo|code reason];
      try discriminate Hself; cbn [turn_actions app].
    - exists [], (settle_actions s (Rejected timeout_error)).
      split; [reflexivity | ].
      unfold settle_actions; destruct (settled s); split; reflexivity.
    - exists (settle_actions s (Resolved (Some r))), [].
      split; [reflexivity | ].
      unfold settle_actions; destruct (settled s); split; reflexivity.
    - exists [], (settle_actions s (rejection_outcome e)).
      split; [reflexivity | ].
      unfold settle_actions; destruct e, (settled s); split; reflexivity. }
  split.
  { apply (flag_before_stop_run t0 n (evs ++ [ev])).
    unfold execution in *. rewrite run_app, Hx. cbn. rewrite Hs. reflexivity. }
  split.
  { subst s'. cbn [after ignoreClose]. rewrite Hself. apply orb_true_r. }
  intros Hst. destruct (inv_unsettled t0 s HI Hst) as [Hig [Hpr Htm]].
  subst s'. cbn [after promise]. rewrite Hst, Hpr.
  destruct ev; try discriminate Hself; reflexivity.
Qed.

(** C4: in a running call, onHelloOk issues the request with the caller's
    method, params and expectFinal.  When that request resolves with a value,
    the turn sets ignoreClose, settles (through the guarded stop) with
    exactly that value and calls client.stop().  When it rejects, the turn
    sets ignoreClose, calls client.stop() and passes what it caught to the
    guarded stop: an Error object settles the call as a failure with exactly
    that error, but a falsy reason fails the test [if (err)] and the call is
    resolved with undefined, a success where the request failed.  No
    exception leaves either turn. *)
Theorem request_outcome_is_propagated
    (t0 : Z) (n : nat) (evs : list (Event T)) (s : State) :
  execution t0 n evs = Some s ->
  (forall s',
      step EvHelloOk s = Some s' ->
      trace s' = trace s
        ++ [AClientRequest (method opts) (params opts) (expectFinal opts)]) /\
  (forall (result : T) (echo : CloseReport) (s' : State),
      step (EvResponse result echo) s = Some s' ->
      ignoreClose s' = true /\
      trace s' = trace s
        ++ [ASetIgnoreClose true]
        ++ (if settled s then [] else [AClearTimeout; AResolve (Some result)])
        ++ [AClientStop] /\
      promise s' =
        (if settled s then promise s else Some (Resolved (Some result))) /\
      uncaught s' = []) /\
  (forall (err : Reason) (echo : CloseReport) (s' : State),
      step (EvRequestError err echo) s = Some s' ->
      ignoreClose s' = true /\
      trace s' = trace s
        ++ [ASetIgnoreClose true; AClientStop]
        ++ (if settled s then []
            else [AClearTimeout;
                  match err with
                  | an_error e => AReject e
                  | falsy_value => AResolve None
                  end]) /\
      promise s' =
        (if settled s then promise s
         else Some match err with
                   | an_error e => Rejected e
                   | falsy_value => Resolved None
                   end) /\
      uncaught s' = []).
Proof.
  intros Hx.
  pose proof (execution_inv t0 n evs s Hx) as HI.
  assert (Hpr : settled s = false -> promise s = None).
  { intros Hst. apply (inv_unsettled t0 s HI Hst). }
  split; [ | split].
  - intros s' Hs. destruct (step_inv t0 _ s s' HI Hs) as [_ [E _]]. subst s'.
    apply trace_after.
  - intros result echo s' Hs.
    destruct (step_inv t0 _ s s' HI Hs) as [_ [E HI']].
    pose proof (inv_uncaught _ _ _ _ _ HI') as Hun.
    subst s'. rewrite trace_after.
    cbn [after ignoreClose promise turn_actions settles self_initiated
         outcome_of] in *.
    unfold settle_actions.
    destruct (settled s); cbn [negb andb orb];
      rewrite ?(Hpr eq_refl), ?orb_true_r; repeat split; assumption.
  - intros err echo s' Hs.
    destruct (step_inv t0 _ s s' HI Hs) as [_ [E HI']].
    pose proof (inv_uncaught _ _ _ _ _ HI') as Hun.
    subst s'. rewrite trace_after.
    cbn [after ignoreClose promise turn_actions settles self_initiated
         outcome_of] in *.
    unfold settle_actions.
    destruct err as [e|]; cbn [rejection_outcome as_Error];
      destruct (settled s); cbn [negb andb orb];
      rewrite ?(Hpr eq_refl), ?orb_true_r; repeat split; assumption.
Qed.

(** ** Close notifications *)

Lemma onClose_ignored (code : Z) (reason : string) (env : CloseReport) (s : State) :
  settled s || ignoreClose s = true ->
  onClose T Unknown code reason env s = (Ok tt, s).
Proof.
  intros H. unfold onClose, bind, gets. rewrite H. reflexivity.
Qed.

Lemma after_close_ignored (code : Z) (reason : string) (s : State) :
  settled s || ignoreClose s = true -> after (EvClose code reason) s = s.
Proof.
  destruct s as [st ig tm cl sd aw pr nw dr un tr]. cbn [settled ignoreClose].
  intros H. destruct st, ig; try discriminate H; reflexivity.
Qed.

(** The decimal numeral [`${code}`] reads back as [code]. *)
Lemma show_number_reads_back (n : Z) :
  NilZero.int_of_string (show_number n) = Some (Z.to_int n) /\
  Z.of_int (Z.to_int n) = n.
Proof.
  split; [ | apply DecimalZ.of_to].
  unfold show_number. apply NilZero.isi.
  - destruct n as [|p|p]; cbn; try discriminate.
    intros E. apply (DecimalPos.Unsigned.to_uint_nonnil p). congruence.
  - destruct n as [|p|p]; cbn; try discriminate.
    intros E. apply (DecimalPos.Unsigned.to_uint_nonnil p). congruence.
Qed.

(** C5: when onClose(code, reason) fires in a running call and the call is
    already settled or ignoreClose is set, the turn leaves the state as it
    was: no settlement is attempted and nothing is thrown.  Otherwise the
    call settles as a failure whose error message is "gateway closed (",
    the close code, "): " and the reason, where the close code is written as
    the decimal numeral that reads back as that code.  The handler itself
    does nothing under that guard in any state, also in the middle of another
    turn. *)
Theorem onClose_ignores_or_rejects
    (t0 : Z) (n : nat) (evs : list (Event T)) (s : State)
    (code : Z) (reason : string) :
  execution t0 n evs = Some s ->
  (exists s',
      step (EvClose code reason) s = Some s' /\
      uncaught s' = [] /\
      (settled s || ignoreClose s = true -> s' = s) /\
      (settled s || ignoreClose s = false ->
       settled s' = true /\
       promise s' = Some (Rejected (close_error code reason)) /\
       trace s' = trace s
         ++ [AClearTimeout; AReject (close_error code reason)])) /\
  message (close_error code reason)
    = String.append "gateway closed ("
        (String.append (show_number code) (String.append "): " reason)) /\
  NilZero.int_of_string (show_number code) = Some (Z.to_int code) /\
  Z.of_int (Z.to_int code) = code /\
  (forall (env : CloseReport) (s0 : State),
      settled s0 || ignoreClose s0 = true ->
      onClose T Unknown code reason env s0 = (Ok tt, s0)).
Proof.
  intros Hx.
  pose proof (execution_inv t0 n evs s Hx) as HI.
  assert (He : enabled (EvClose code reason) s = true).
  { cbn. apply (inv_started _ _ _ _ _ HI). }
  split;
    [ | split; [reflexivity | ];
        split; [apply show_number_reads_back | ];
        split; [apply show_number_reads_back
               | intros env s0; apply onClose_ignored]].
  exists (after (EvClose code reason) s).
  split; [apply (step_enabled t0); assumption | ].
  split.
  { apply (inv_uncaught T Unknown opts t0). apply after_inv; assumption. }
  split; [apply after_close_ignored | ].
  intros Hg. apply orb_false_iff in Hg. destruct Hg as [Hst Hig].
  destruct (inv_unsettled t0 s HI Hst) as [_ [Hpr _]].
  rewrite trace_after.
  cbn [after settled promise turn_actions settles outcome_of].
  unfold settle_actions. rewrite Hst, Hig, Hpr. repeat split.
Qed.

(** C6 (as amended): the timer is armed, when callGateway runs, for the
    delay the host makes of the resolved timeoutMs: timeoutMs itself when it
    is at most 2147483647, and 1 ms when it is larger.  Its callback cannot
    run before the clock has advanced by that delay, so for a timeoutMs of
    at most 2147483647 the call does not time out earlier than timeoutMs
    after the timer is armed.  When the callback runs, the call was not
    settled, and the turn stops the client (its only client.stop() so far)
    and rejects the promise with the constant error "gateway timeout", which
    has no room for a partial result, whatever frames came before.  If
    nothing else settles the call, waiting out the delay and running the
    callback does. *)
Theorem timeout_settles_no_earlier_than_deadline
    (t0 : Z) (n : nat) (evs : list (Event T)) (s : State) :
  execution t0 n evs = Some s ->
  (resolved_timeoutMs Unknown opts <= 2147483647 ->
   host_delay (resolved_timeoutMs Unknown opts)
     = resolved_timeoutMs Unknown opts) /\
  (2147483647 < resolved_timeoutMs Unknown opts ->
   host_delay (resolved_timeoutMs Unknown opts) = 1) /\
  now (launched t0 n) = t0 /\
  timer (launched t0 n)
    = Some (Pending (t0 + host_delay (resolved_timeoutMs Unknown opts))) /\
  (forall echo,
      now s < t0 + host_delay (resolved_timeoutMs Unknown opts) ->
      step (EvTimeout echo) s = None) /\
  (forall echo s',
      step (EvTimeout echo) s = Some s' ->
      t0 + host_delay (resolved_timeoutMs Unknown opts) <= now s' /\
      settled s = false /\
      promise s' = Some (Rejected (mkError "gateway timeout")) /\
      trace s' = trace s
        ++ [ASetIgnoreClose true; AClientStop; AClearTimeout;
            AReject (mkError "gateway timeout")] /\
      calls is_client_stop (trace s') = 1%nat) /\
  (settled s = false ->
   forall (ms : N) (echo : CloseReport),
     t0 + host_delay (resolved_timeoutMs Unknown opts) <= now s + Z.of_N ms ->
     exists s',
       run [EvElapse ms; EvTimeout echo] s = Some s' /\
       promise s' = Some (Rejected (mkError "gateway timeout")) /\
       calls is_client_stop (trace s') = 1%nat).
Proof.
  intros Hx.
  pose proof (execution_inv t0 n evs s Hx) as HI.
  destruct (launched_state t0 n) as [_ [_ [_ [Hn [Ht _]]]]].
  split.
  { intros Hle. unfold host_delay, TIMEOUT_MAX.
    destruct (Z.leb_spec (resolved_timeoutMs Unknown opts) 2147483647);
      [reflexivity | lia]. }
  split.
  { intros Hlt. unfold host_delay, TIMEOUT_MAX.
    destruct (Z.leb_spec (resolved_timeoutMs Unknown opts) 2147483647);
      [lia | reflexivity]. }
  do 2 (split; [assumption | ]).
  split.
  { intros echo Hlt.
    destruct (step (EvTimeout echo) s) as [s'|] eqn:Hs; [ | reflexivity].
    destruct (timeout_needs_deadline t0 echo s s' HI Hs) as [_ Hd]. lia. }
  split.
  { intros echo s' Hs.
    destruct (timeout_needs_deadline t0 echo s s' HI Hs) as [Hst Hd].
    destruct (timeout_turn t0 echo s HI Hst Hd) as [Hs2 [A [B [C [D [E F]]]]]].
    rewrite Hs in Hs2. inversion Hs2; subst s'.
    rewrite C. repeat split; assumption. }
  intros Hst ms echo Hd.
  destruct (timer_settles t0 ms echo s HI Hst Hd) as [s' [A [B [C [D _]]]]].
  exists s'. repeat split; assumption.
Qed.

(** ** What [callGateway] passes on *)

Lemma launched_trace (t0 : Z) (n : nat) :
  exists cfg,
    client (launched t0 n) = Some cfg /\
    trace (launched t0 n) =
      match instanceId opts with
      | Some _ => []
      | None => [ARandomUUID]
      end ++ [ANewGatewayClient cfg;
              ASetTimeout (resolved_timeoutMs Unknown opts); AClientStart] /\
    drawn (launched t0 n) =
      match instanceId opts with
      | Some _ => n
      | None => S n
      end /\
    cfg = {| cfg_url := url opts;
             cfg_token := token opts;
             cfg_password := password opts;
             cfg_instanceId :=
               match instanceId opts with
               | Some v => v
               | None => uuid_source n
               end;
             cfg_clientName := clientName opts ?? "cli"%string;
             cfg_clientVersion := clientVersion opts ?? "dev"%string;
             cfg_platform := platform opts;
             cfg_mode := mode opts ?? "cli"%string;
             cfg_minProtocol := minProtocol opts ?? PROTOCOL_VERSION;
             cfg_maxProtocol := maxProtocol opts ?? PROTOCOL_VERSION |}.
Proof.
  unfold launched, callGateway, client_options, nullish_lazy.
  destruct (instanceId opts); eexists; repeat split; reflexivity.
Qed.

(** C7: the options object callGateway builds for the client, and the delay
    it gives the timer, take each omitted option from its default:
    timeoutMs 10000, instanceId the token randomUUID hands out at this very
    call (the generator is advanced by one; it is not called when an
    instanceId is given), clientName "cli", clientVersion "dev", mode "cli",
    minProtocol and maxProtocol each PROTOCOL_VERSION.  A given option is
    passed through as it is, and so are url, token, password and platform. *)
Theorem omitted_options_take_defaults (t0 : Z) (n : nat) :
  exists cfg pre,
    trace (launched t0 n)
      = pre ++ [ANewGatewayClient cfg;
                ASetTimeout (resolved_timeoutMs Unknown opts); AClientStart] /\
    resolved_timeoutMs Unknown opts
      = match timeoutMs opts with Some v => v | None => 10000 end /\
    cfg_instanceId cfg
      = match instanceId opts with Some v => v | None => uuid_source n end /\
    pre = match instanceId opts with Some _ => [] | None => [ARandomUUID] end /\
    drawn (launched t0 n)
      = match instanceId opts with Some _ => n | None => S n end /\
    cfg_clientName cfg
      = match clientName opts with Some v => v | None => "cli"%string end /\
    cfg_clientVersion cfg
      = match clientVersion opts with Some v => v | None => "dev"%string end /\
    cfg_mode cfg
      = match mode opts with Some v => v | None => "cli"%string end /\
    cfg_minProtocol cfg
      = match minProtocol opts with Some v => v | None => PROTOCOL_VERSION end /\
    cfg_maxProtocol cfg
      = match maxProtocol opts with Some v => v | None => PROTOCOL_VERSION end /\
    cfg_url cfg = url opts /\
    cfg_token cfg = token opts /\
    cfg_password cfg = password opts /\
    cfg_platform cfg = platform opts.
Proof.
  destruct (launched_trace t0 n) as [cfg [_ [Htr [Hdr Hcfg]]]].
  exists cfg, (match instanceId opts with Some _ => [] | None => [ARandomUUID] end).
  split; [exact Htr | ].
  subst cfg. cbn. repeat split. exact Hdr.
Qed.

Lemma trace_extends (t0 : Z) (n : nat) (evs : list (Event T)) (s : State) :
  execution t0 n evs = Some s ->
  exists post, trace s = trace (launched t0 n) ++ post.
Proof.
  unfold execution.
  apply (run_preserves t0
           (fun s => exists post, trace s = trace (launched t0 n) ++ post)).
  - intros ev s0 _ [post Hp] _. exists (post ++ turn_actions ev s0).
    rewrite trace_after, Hp, app_assoc. reflexivity.
  - apply launched_inv.
  - exists []. symmetry. apply app_nil_r.
Qed.

(** C8: client.start() is the last thing callGateway does: in the trace of
    the executor it comes after the client has been built with its hooks and
    after the timer has been armed, and it is the only start of the whole
    execution.  Before it, the client is not started, so neither hook can be
    delivered; after it, both bindings the callbacks read are initialised,
    and indeed no callback ever ends in an exception. *)
Theorem client_start_is_last (t0 : Z) (n : nat) :
  (exists pre cfg,
      trace (launched t0 n)
        = pre ++ [ANewGatewayClient cfg;
                  ASetTimeout (resolved_timeoutMs Unknown opts); AClientStart] /\
      calls is_client_start pre = 0%nat /\
      client (launched t0 n) = Some cfg /\
      timer (launched t0 n) = Some (Pending (deadline t0)) /\
      started (launched t0 n) = true) /\
  started (initial t0 n : State) = false /\
  (forall (s0 : State) (code : Z) (reason : string),
      started s0 = false ->
      step EvHelloOk s0 = None /\ step (EvClose code reason) s0 = None) /\
  (forall (evs : list (Event T)) (s : State),
      execution t0 n evs = Some s ->
      calls is_client_start (trace s) = 1%nat /\
      uncaught s = [] /\
      exists post, trace s = trace (launched t0 n) ++ post).
Proof.
  destruct (launched_trace t0 n) as [cfg [Hcl [Htr _]]].
  destruct (launched_state t0 n) as [_ [_ [_ [_ [Htm Hsd]]]]].
  split.
  { exists (match instanceId opts with Some _ => [] | None => [ARandomUUID] end), cfg.
    split; [exact Htr | ].
    split; [destruct (instanceId opts); reflexivity | ].
    repeat split; assumption. }
  split; [reflexivity | ].
  split.
  { intros s0 code reason H0. unfold step. cbn [enabled].
    rewrite H0. split; reflexivity. }
  intros evs s Hx.
  pose proof (execution_inv t0 n evs s Hx) as HI.
  split; [apply (inv_starts _ _ _ _ _ HI) | ].
  split; [apply (inv_uncaught _ _ _ _ _ HI) | ].
  apply (trace_extends t0 n evs s Hx).
Qed.

(** C9: a given timeoutMs is used as it is, and 10000 only stands in for an
    omitted one.  With timeoutMs equal to 0 the timer is armed with delay 0,
    so its deadline is the moment of arming: in every state of the call in
    which nothing has settled it yet, the timer callback can run without any
    time passing, and it rejects the promise with the timeout error. *)
Theorem zero_timeout_fires_at_once
    (t0 : Z) (n : nat) (evs : list (Event T)) (s : State) (echo : CloseReport) :
  timeoutMs opts = Some 0 ->
  execution t0 n evs = Some s ->
  settled s = false ->
  (forall (o : CallGatewayOptions Unknown) (v : Z),
      timeoutMs o = Some v -> resolved_timeoutMs Unknown o = v) /\
  (forall o : CallGatewayOptions Unknown,
      timeoutMs o = None -> resolved_timeoutMs Unknown o = 10000) /\
  In (ASetTimeout 0) (trace (launched t0 n)) /\
  timer (launched t0 n) = Some (Pending t0) /\
  exists s',
    step (EvTimeout echo) s = Some s' /\
    now s' = now s /\
    settled s' = true /\
    promise s' = Some (Rejected (mkError "gateway timeout")).
Proof.
  intros H0 Hx Hst.
  pose proof (execution_inv t0 n evs s Hx) as HI.
  assert (Hr : resolved_timeoutMs Unknown opts = 0).
  { unfold resolved_timeoutMs. rewrite H0. reflexivity. }
  split; [intros o v Hv; unfold resolved_timeoutMs; rewrite Hv; reflexivity | ].
  split; [intros o Hv; unfold resolved_timeoutMs; rewrite Hv; reflexivity | ].
  destruct (launched_trace t0 n) as [cfg [_ [Htr _]]].
  destruct (launched_state t0 n) as [_ [_ [_ [_ [Htm _]]]]].
  split.
  { rewrite Htr, Hr. apply in_or_app. right. right. left. reflexivity. }
  split; [rewrite Htm, Hr, Z.add_0_r; reflexivity | ].
  assert (Hd : deadline t0 <= now s).
  { rewrite Hr, Z.add_0_r. apply (inv_clock _ _ _ _ _ HI). }
  destruct (timeout_turn t0 echo s HI Hst Hd) as [Hs [A [B [C [D _]]]]].
  exists (after (EvTimeout echo) s). repeat split; assumption.
Qed.

(** C10: ignoreClose starts false, every write to it in any execution writes
    true, and once it is true it stays true for the rest of the run.  After
    any of the orchestrator's own shutdown paths has run, the flag is set in
    every later state, and every close notification delivered there leaves
    the state untouched. *)
Theorem ignoreClose_is_monotone
    (t0 : Z) (n : nat) (evs : list (Event T)) (s : State) :
  execution t0 n evs = Some s ->
  ignoreClose (initial t0 n : State) = false /\
  ignoreClose (launched t0 n) = false /\
  (forall b, In (ASetIgnoreClose b) (trace s) -> b = true) /\
  (forall (evs' : list (Event T)) (s' : State),
      run evs' s = Some s' -> ignoreClose s = true -> ignoreClose s' = true) /\
  (forall (ev : Event T) (s1 : State) (evs' : list (Event T)) (s2 : State)
          (code : Z) (reason : string),
      self_initiated ev = true ->
      step ev s = Some s1 ->
      run evs' s1 = Some s2 ->
      ignoreClose s2 = true /\ step (EvClose code reason) s2 = Some s2).
Proof.
  intros Hx.
  pose proof (execution_inv t0 n evs s Hx) as HI.
  assert (Hmono : forall evs' sa sb,
             Inv t0 sa -> run evs' sa = Some sb ->
             ignoreClose sa = true -> ignoreClose sb = true).
  { intros evs' sa sb HIa Hr Hig.
    apply (run_preserves t0 (fun x => ignoreClose x = true)
             ltac:(intros ev x _ Hp _; cbn [after ignoreClose];
                   rewrite Hp; reflexivity)
             evs' sa sb HIa Hig Hr). }
  split; [reflexivity | ].
  split; [apply (launched_state t0 n) | ].
  split; [apply (inv_writes _ _ _ _ _ HI) | ].
  split; [intros evs' s' Hr Hig; apply (Hmono evs' s s' HI Hr Hig) | ].
  intros ev s1 evs' s2 code reason Hself Hs Hr.
  destruct (step_inv t0 ev s s1 HI Hs) as [_ [E HI1]].
  assert (Hig1 : ignoreClose s1 = true).
  { subst s1. cbn [after ignoreClose]. rewrite Hself. apply orb_true_r. }
  pose proof (Hmono evs' s1 s2 HI1 Hr Hig1) as Hig2.
  pose proof (run_inv t0 evs' s1 s2 HI1 Hr) as HI2.
  split; [assumption | ].
  assert (He : enabled (EvClose code reason) s2 = true).
  { cbn. apply (inv_started _ _ _ _ _ HI2). }
  rewrite (step_enabled t0 _ s2 HI2 He), after_close_ignored; [reflexivity | ].
  rewrite Hig2. apply orb_true_r.
Qed.

End Properties.

(** * Concrete runs *)

(** C2, as stated, fails: when the connection drops while the request is
    outstanding, the call settles with the close failure and the timer is
    cleared, but the orchestrator has made no client.stop() call at all. *)
Lemma unexpected_close_makes_no_client_stop :
  exists s,
    sample_execution dropped_run = Some s /\
    settled s = true /\
    promise s = Some (Rejected (close_error 1006 "abnormal")) /\
    calls is_clear (trace s) = 1%nat /\
    calls is_client_stop (trace s) = 0%nat /\
    calls is_client_stop (trace s) <> 1%nat.
Proof.
  exists (state_after dropped_run).
  vm_compute. repeat split. discriminate.
Qed.

(** C6, as stated, fails: a call made with timeoutMs = 2147483648 and left
    without an answer settles as a timeout one millisecond after the timer
    was armed, long before timeoutMs has passed. *)
Lemma long_timeout_fires_after_one_millisecond :
  resolved_timeoutMs string long_timeout_opts = 2147483648 /\
  now (launched string string 2 sample_uuids long_timeout_opts 1000 0%nat)
    = 1000 /\
  exists s,
    execution string string 2 sample_uuids long_timeout_opts 1000 0%nat
      [EvHelloOk; EvElapse 1; EvTimeout None] = Some s /\
    promise s = Some (Rejected (mkError "gateway timeout")) /\
    now s = 1001 /\
    ~ (1000 + resolved_timeoutMs string long_timeout_opts <= now s).
Proof.
  split; [reflexivity | split; [reflexivity | ]].
  eexists. split; [vm_compute; reflexivity | ].
  split; [reflexivity | split; [reflexivity | ]].
  intros H. vm_compute in H. apply H. reflexivity.
Qed.

Ltac by_evaluation := vm_compute; reflexivity.

Lemma callGateway_settles_exactly_once_witness :
  sample_execution pong_run = Some (state_after pong_run) /\
  (calls is_resolve (trace (state_after pong_run))
   + calls is_reject (trace (state_after pong_run)) <= 1)%nat /\
  timer_pending (state_after pong_run) = negb (settled (state_after pong_run)).
Proof.
  assert (Hx : sample_execution pong_run = Some (state_after pong_run))
    by by_evaluation.
  split; [exact Hx | ].
  pose proof (callGateway_settles_exactly_once string string 2 sample_uuids
                sample_opts 1000 0%nat pong_run (state_after pong_run) Hx) as W.
  split; [exact (proj1 W) | exact (proj1 (proj2 (proj2 W)))].
Defined.

Lemma settling_turn_clears_timer_and_stops_client_witness :
  sample_execution [EvHelloOk] = Some (state_after [EvHelloOk]) /\
  step sample_opts (EvResponse "pong"%string None) (state_after [EvHelloOk])
    = Some (state_after pong_run) /\
  settled (state_after [EvHelloOk]) = false /\
  settled (state_after pong_run) = true /\
  calls is_client_stop (trace (state_after [EvHelloOk])) = 0%nat /\
  calls is_clear (trace (state_after pong_run)) = 1%nat /\
  timer_pending (state_after pong_run) = false /\
  calls is_client_stop (trace (state_after pong_run)) = 1%nat /\
  calls is_clear
    (trace (state_after (pong_run ++ [EvElapse 60; EvClose 1000 ""%string])))
    = 1%nat.
Proof.
  assert (Hx : sample_execution [EvHelloOk] = Some (state_after [EvHelloOk]))
    by by_evaluation.
  assert (Hs : step sample_opts (EvResponse "pong"%string None)
                 (state_after [EvHelloOk]) = Some (state_after pong_run))
    by by_evaluation.
  assert (H0 : settled (state_after [EvHelloOk]) = false) by by_evaluation.
  assert (H1 : settled (state_after pong_run) = true) by by_evaluation.
  assert (Hl : run sample_opts [EvElapse 60; EvClose 1000 ""%string]
                 (state_after pong_run)
               = Some (state_after
                         (pong_run ++ [EvElapse 60; EvClose 1000 ""%string])))
    by by_evaluation.
  do 4 (split; [assumption | ]).
  pose proof (settling_turn_clears_timer_and_stops_client string string 2
                sample_uuids sample_opts 1000 0%nat [EvHelloOk]
                (state_after [EvHelloOk]) (state_after pong_run)
                (EvResponse "pong"%string None) Hx Hs H0 H1) as W.
  destruct W as [Z0 [_ [A [B [C [_ D]]]]]].
  split; [exact Z0 | ].
  split; [exact A | split; [exact B | split; [exact (C eq_refl) | ]]].
  exact (proj1 (proj2 (D _ _ Hl))).
Defined.

Lemma flag_set_before_client_stop_witness :
  sample_execution [EvHelloOk; EvElapse 50]
    = Some (state_after [EvHelloOk; EvElapse 50]) /\
  step sample_opts (EvTimeout (Some (1000, ""%string)))
       (state_after [EvHelloOk; EvElapse 50])
    = Some (state_after [EvHelloOk; EvElapse 50;
                         EvTimeout (Some (1000, ""%string))]) /\
  self_initiated (EvTimeout (T := string) (Some (1000, ""%string))) = true /\
  flag_before_stop false
    (trace (state_after [EvHelloOk; EvElapse 50;
                         EvTimeout (Some (1000, ""%string))])) = true /\
  promise (state_after [EvHelloOk; EvElapse 50;
                        EvTimeout (Some (1000, ""%string))])
    = Some (Rejected timeout_error).
Proof.
  assert (Hx : sample_execution [EvHelloOk; EvElapse 50]
               = Some (state_after [EvHelloOk; EvElapse 50]))
    by by_evaluation.
  assert (Hs : step sample_opts (EvTimeout (Some (1000, ""%string)))
                 (state_after [EvHelloOk; EvElapse 50])
               = Some (state_after [EvHelloOk; EvElapse 50;
                                    EvTimeout (Some (1000, ""%string))]))
    by by_evaluation.
  assert (H0 : settled (state_after [EvHelloOk; EvElapse 50]) = false)
    by by_evaluation.
  split; [exact Hx | split; [exact Hs | split; [reflexivity | ]]].
  pose proof (flag_set_before_client_stop string string 2 sample_uuids
                sample_opts 1000 0%nat [EvHelloOk; EvElapse 50]
                (state_after [EvHelloOk; EvElapse 50])
                (state_after [EvHelloOk; EvElapse 50;
                              EvTimeout (Some (1000, ""%string))])
                (EvTimeout (Some (1000, ""%string)))
                Hx Hs eq_refl) as W.
  destruct W as [_ [A [_ B]]].
  split; [exact A | exact (B H0)].
Defined.

Lemma request_outcome_is_propagated_witness :
  sample_execution [EvHelloOk] = Some (state_after [EvHelloOk]) /\
  promise (state_after pong_run) = Some (Resolved (Some "pong"%string)) /\
  promise (state_after [EvHelloOk;
                        EvRequestError
                          (an_error (mkError "unknown method")) None])
    = Some (Rejected (mkError "unknown method")) /\
  promise (state_after [EvHelloOk; EvRequestError falsy_value None])
    = Some (Resolved None) /\
  trace (state_after [EvHelloOk; EvRequestError falsy_value None])
    = trace (state_after [EvHelloOk])
        ++ [ASetIgnoreClose true; AClientStop; AClearTimeout; AResolve None].
Proof.
  assert (Hx : sample_execution [EvHelloOk] = Some (state_after [EvHelloOk]))
    by by_evaluation.
  assert (Hs : step sample_opts (EvResponse "pong"%string None)
                 (state_after [EvHelloOk]) = Some (state_after pong_run))
    by by_evaluation.
  assert (He : step sample_opts
                 (EvRequestError (an_error (mkError "unknown method")) None)
                 (state_after [EvHelloOk])
               = Some (state_after
                         [EvHelloOk;
                          EvRequestError
                            (an_error (mkError "unknown method")) None]))
    by by_evaluation.
  assert (Hf : step sample_opts (EvRequestError falsy_value None)
                 (state_after [EvHelloOk])
               = Some (state_after
                         [EvHelloOk; EvRequestError falsy_value None]))
    by by_evaluation.
  assert (H0 : settled (state_after [EvHelloOk]) = false) by by_evaluation.
  split; [exact Hx | ].
  pose proof (request_outcome_is_propagated string string 2 sample_uuids
                sample_opts 1000 0%nat [EvHelloOk] (state_after [EvHelloOk])
                Hx) as W.
  destruct W as [_ [A B]].
  split; [ | split; [ | split]].
  - destruct (A "pong"%string None (state_after pong_run) Hs) as [_ [_ [P _]]].
    rewrite H0 in P. exact P.
  - destruct (B (an_error (mkError "unknown method")) None _ He)
      as [_ [_ [P _]]].
    rewrite H0 in P. exact P.
  - destruct (B falsy_value None _ Hf) as [_ [_ [P _]]].
    rewrite H0 in P. exact P.
  - destruct (B falsy_value None _ Hf) as [_ [P _]].
    rewrite H0 in P. exact P.
Defined.

Lemma onClose_ignores_or_rejects_witness :
  sample_execution pong_run = Some (state_after pong_run) /\
  sample_execution [EvHelloOk] = Some (state_after [EvHelloOk]) /\
  (exists s',
      step sample_opts (EvClose 1000 ""%string) (state_after pong_run)
        = Some s' /\
      uncaught s' = [] /\
      s' = state_after pong_run) /\
  (exists s',
      step sample_opts (EvClose 1006 "abnormal"%string)
           (state_after [EvHelloOk]) = Some s' /\
      settled s' = true /\
      promise s'
        = Some (Rejected (mkError "gateway closed (1006): abnormal"))) /\
  show_number 1006 = "1006"%string.
Proof.
  assert (Hx : sample_execution pong_run = Some (state_after pong_run))
    by by_evaluation.
  assert (Hy : sample_execution [EvHelloOk] = Some (state_after [EvHelloOk]))
    by by_evaluation.
  assert (Hg : settled (state_after pong_run)
               || ignoreClose (state_after pong_run) = true)
    by by_evaluation.
  assert (Hu : settled (state_after [EvHelloOk])
               || ignoreClose (state_after [EvHelloOk]) = false)
    by by_evaluation.
  assert (Hm : close_error 1006 "abnormal"
               = mkError "gateway closed (1006): abnormal")
    by by_evaluation.
  split; [exact Hx | split; [exact Hy | ]].
  pose proof (onClose_ignores_or_rejects string string 2 sample_uuids
                sample_opts 1000 0%nat pong_run (state_after pong_run)
                1000 ""%string Hx) as W.
  pose proof (onClose_ignores_or_rejects string string 2 sample_uuids
                sample_opts 1000 0%nat [EvHelloOk] (state_after [EvHelloOk])
                1006 "abnormal"%string Hy) as V.
  split; [ | split].
  - destruct W as [[s' [A [B [C _]]]] _].
    exists s'. split; [exact A | split; [exact B | exact (C Hg)]].
  - destruct V as [[s' [A [_ [_ C]]]] _].
    exists s'. split; [exact A | ].
    destruct (C Hu) as [P [Q _]].
    split; [exact P | rewrite <- Hm; exact Q].
  - destruct V as [_ [_ [R _]]].
    apply NilZero.sis. exact R.
Defined.

Lemma timeout_settles_no_earlier_than_deadline_witness :
  sample_execution silent_run = Some (state_after silent_run) /\
  host_delay (resolved_timeoutMs string sample_opts) = 50 /\
  step sample_opts (EvTimeout None) (state_after silent_run) = None /\
  exists s',
    run sample_opts [EvElapse 50; EvTimeout None] (state_after silent_run)
      = Some s' /\
    promise s' = Some (Rejected (mkError "gateway timeout")) /\
    calls is_client_stop (trace s') = 1%nat.
Proof.
  assert (Hx : sample_execution silent_run = Some (state_after silent_run))
    by by_evaluation.
  assert (H0 : settled (state_after silent_run) = false) by by_evaluation.
  assert (Hn : now (state_after silent_run) = 1000) by by_evaluation.
  assert (Hd : resolved_timeoutMs string sample_opts = 50) by by_evaluation.
  split; [exact Hx | ].
  pose proof (timeout_settles_no_earlier_than_deadline string string 2
                sample_uuids sample_opts 1000 0%nat silent_run
                (state_after silent_run) Hx) as W.
  destruct W as [D [_ [_ [_ [A [_ B]]]]]].
  assert (Hh : host_delay (resolved_timeoutMs string sample_opts) = 50).
  { rewrite D; [exact Hd | rewrite Hd; discriminate]. }
  split; [exact Hh | split].
  - apply (A None). rewrite Hn, Hh. reflexivity.
  - apply (B H0 50%N None). rewrite Hn, Hh. discriminate.
Defined.

Lemma zero_timeout_fires_at_once_witness :
  timeoutMs zero_timeout_opts = Some 0 /\
  execution string string 2 sample_uuids zero_timeout_opts 1000 0%nat []
    = Some (launched string string 2 sample_uuids zero_timeout_opts 1000 0%nat) /\
  settled (launched string string 2 sample_uuids zero_timeout_opts 1000 0%nat)
    = false /\
  exists s',
    step zero_timeout_opts (EvTimeout None)
         (launched string string 2 sample_uuids zero_timeout_opts 1000 0%nat)
      = Some s' /\
    now s' = now (launched string string 2 sample_uuids zero_timeout_opts
                           1000 0%nat) /\
    settled s' = true /\
    promise s' = Some (Rejected (mkError "gateway timeout")).
Proof.
  assert (H0 : settled (launched string string 2 sample_uuids
                          zero_timeout_opts 1000 0%nat) = false)
    by by_evaluation.
  split; [reflexivity | split; [reflexivity | split; [exact H0 | ]]].
  pose proof (zero_timeout_fires_at_once string string 2 sample_uuids
                zero_timeout_opts 1000 0%nat []
                (launched string string 2 sample_uuids zero_timeout_opts
                          1000 0%nat)
                None eq_refl eq_refl H0) as W.
  exact (proj2 (proj2 (proj2 (proj2 W)))).
Defined.

Lemma ignoreClose_is_monotone_witness :
  sample_execution [EvHelloOk] = Some (state_after [EvHelloOk]) /\
  ignoreClose (state_after pong_run) = true /\
  step sample_opts (EvClose 1000 ""%string) (state_after pong_run)
    = Some (state_after pong_run).
Proof.
  assert (Hx : sample_execution [EvHelloOk] = Some (state_after [EvHelloOk]))
    by by_evaluation.
  assert (Hs : step sample_opts (EvResponse "pong"%string None)
                 (state_after [EvHelloOk]) = Some (state_after pong_run))
    by by_evaluation.
  split; [exact Hx | ].
  pose proof (ignoreClose_is_monotone string string 2 sample_uuids
                sample_opts 1000 0%nat [EvHelloOk] (state_after [EvHelloOk])
                Hx) as W.
  destruct W as [_ [_ [_ [_ A]]]].
  exact (A (EvResponse "pong"%string None) (state_after pong_run) []
           (state_after pong_run) 1000 ""%string eq_refl Hs eq_refl).
Defined.

(** * More about [callGateway] *)

Section CallGatewayRuns.

Variable T : Type.
Variable Unknown : Type.
Variable PROTOCOL_VERSION : Z.
Variable uuid_source : nat -> string.
Variable opts : CallGatewayOptions Unknown.

Local Abbreviation State := (State T Unknown).
Local Abbreviation Action := (Action T Unknown).
Local Abbreviation step := (step opts).
Local Abbreviation run := (run opts).
Local Abbreviation launched := (launched T Unknown PROTOCOL_VERSION uuid_source opts).
Local Abbreviation execution := (execution T Unknown PROTOCOL_VERSION uuid_source opts).
Local Abbreviation Inv := (Inv T Unknown opts).
Local Abbreviation after := (after T Unknown opts).
Local Abbreviation turn_actions := (turn_actions T Unknown opts).

#[local] Arguments calls : simpl never.

(** Counting along a run: what a turn adds depends on the event alone. *)
Lemma calls_along_run
    (t0 : Z) (f : Action -> bool) (g : Event T -> bool) :
  (forall ev s, calls f (turn_actions ev s) = if g ev then 1%nat else 0%nat) ->
  forall evs s s',
    Inv t0 s -> run evs s = Some s' ->
    calls f (trace s') = (calls f (trace s) + List.length (filter g evs))%nat.
Proof.
  intros Hturn evs.
  induction evs as [|ev evs IH]; intros s s' HI Hr.
  - cbn in Hr. inversion Hr; subst. cbn. lia.
  - rewrite run_cons in Hr.
    destruct (step ev s) as [s1|] eqn:Hs; [ | discriminate].
    destruct (step_inv T Unknown opts t0 ev s s1 HI Hs) as [_ [E HI1]].
    rewrite (IH s1 s' HI1 Hr). subst s1.
    rewrite trace_after, calls_app, Hturn. cbn [filter].
    destruct (g ev); cbn [List.length]; lia.
Qed.

Lemma launched_calls (t0 : Z) (n : nat) :
  calls is_client_stop (trace (launched t0 n)) = 0%nat /\
  calls is_request (trace (launched t0 n)) = 0%nat.
Proof.
  destruct (launched_trace T Unknown PROTOCOL_VERSION uuid_source opts t0 n)
    as [cfg [_ [Htr _]]].
  rewrite Htr. destruct (instanceId opts); split; reflexivity.
Qed.

(** X1: in every execution the orchestrator has called client.stop() once
    for each timer, response and request-error turn that ran, settled or
    not: a response that arrives after the timeout stops the client a second
    time. *)
Theorem client_stop_once_per_shutdown_turn
    (t0 : Z) (n : nat) (evs : list (Event T)) (s : State) :
  execution t0 n evs = Some s ->
  calls is_client_stop (trace s) = List.length (filter self_initiated evs).
Proof.
  intros Hx.
  rewrite (calls_along_run t0 is_client_stop self_initiated) with
    (evs := evs) (s := launched t0 n); [ | | apply launched_inv | exact Hx].
  - rewrite (proj1 (launched_calls t0 n)). reflexivity.
  - intros ev s0. destruct ev as [ms|echo| |p|r echo|[e|] echo|code reason];
      cbn [turn_actions self_initiated];
      unfold settle_actions; destruct (settled s0);
      try destruct (ignoreClose s0); reflexivity.
Qed.

(** X2: in every execution client.request has been called exactly once per
    onHelloOk notification, each time with the caller's method, params and
    expectFinal, and by no other callback. *)
Theorem one_request_per_hello
    (t0 : Z) (n : nat) (evs : list (Event T)) (s : State) :
  execution t0 n evs = Some s ->
  calls is_request (trace s)
    = List.length
        (filter (fun ev => match ev with EvHelloOk => true | _ => false end) evs)
  /\
  (forall m p ef,
      In (AClientRequest m p ef) (trace s) ->
      m = method opts /\ p = params opts /\ ef = expectFinal opts).
Proof.
  intros Hx. split.
  - rewrite (calls_along_run t0 is_request
               (fun ev => match ev with EvHelloOk => true | _ => false end))
      with (evs := evs) (s := launched t0 n);
      [ | | apply launched_inv | exact Hx].
    + rewrite (proj2 (launched_calls t0 n)). reflexivity.
    + intros ev s0.
      destruct ev as [ms|echo| |p|r echo|[e|] echo|code reason];
        cbn [turn_actions];
        unfold settle_actions; destruct (settled s0);
        try destruct (ignoreClose s0); reflexivity.
  - revert Hx. unfold execution.
    apply (run_preserves T Unknown opts t0
             (fun x => forall m p ef,
                  In (AClientRequest m p ef) (trace x) ->
                  m = method opts /\ p = params opts /\ ef = expectFinal opts)).
    + intros ev s0 _ HP _ m p ef Hin.
      rewrite trace_after in Hin. apply in_app_or in Hin.
      destruct Hin as [Hin|Hin]; [apply HP; exact Hin | ].
      destruct ev as [?|?| |?|? ?|[?|] ?|? ?];
        cbn [turn_actions] in Hin; unfold settle_actions in Hin;
        destruct (settled s0); try destruct (ignoreClose s0);
        cbn in Hin;
        repeat (destruct Hin as [Hin|Hin]; [try discriminate Hin | ]);
        try contradiction.
      all: inversion Hin; subst; repeat split.
    + apply launched_inv.
    + intros m p ef Hin.
      destruct (launched_trace T Unknown PROTOCOL_VERSION uuid_source opts t0 n)
        as [cfg [_ [Htr _]]].
      rewrite Htr in Hin. destruct (instanceId opts); cbn in Hin;
        repeat (destruct Hin as [Hin|Hin]; [discriminate Hin | ]);
        contradiction.
Qed.

Lemma stop_when_settled
    (err : option Error) (v : option T) (env : CloseReport) (s : State) :
  settled s = true -> stop T Unknown err v env s = (Ok tt, s).
Proof.
  intros H. unfold stop, bind, gets. rewrite H. reflexivity.
Qed.

(** X3: the local stop is a one-shot: whatever state it is called in and
    whether it returns or throws, it leaves settled set, and any further call,
    with any arguments, returns without touching the state, the timer or the
    promise. *)
Theorem stop_is_idempotent
    (err err' : option Error) (v v' : option T) (env env' : CloseReport)
    (s : State) :
  settled (snd (stop T Unknown err v env s)) = true /\
  stop T Unknown err' v' env' (snd (stop T Unknown err v env s))
    = (Ok tt, snd (stop T Unknown err v env s)).
Proof.
  assert (H : settled (snd (stop T Unknown err v env s)) = true).
  { destruct s as [st ig tm cl sd aw pr nw dr un tr].
    destruct st; [reflexivity | ].
    destruct tm as [[d| |]|], err, pr; reflexivity. }
  split; [exact H | apply stop_when_settled, H].
Qed.

(** X4: once a call is settled nothing that happens later changes its
    outcome: the promise keeps its value, and resolve and reject are not
    called again. *)
Theorem outcome_is_final
    (t0 : Z) (n : nat) (evs evs' : list (Event T)) (s s' : State) :
  execution t0 n evs = Some s ->
  settled s = true ->
  run evs' s = Some s' ->
  settled s' = true /\
  promise s' = promise s /\
  calls is_settle (trace s') = calls is_settle (trace s).
Proof.
  intros Hx Hst Hr.
  pose proof (execution_inv T Unknown PROTOCOL_VERSION uuid_source opts
                t0 n evs s Hx) as HI.
  destruct (settling_events_settled T Unknown opts t0 evs' s s' HI Hst Hr)
    as [_ [Hp Hst']].
  pose proof (run_inv T Unknown opts t0 evs' s s' HI Hr) as HI'.
  split; [exact Hst' | split; [exact Hp | ]].
  rewrite (inv_settles _ _ _ _ _ HI), (inv_settles _ _ _ _ _ HI'), Hst, Hst'.
  reflexivity.
Qed.

(** X5: the timer callback never runs once the call is settled: stop has
    cancelled the timer (or the timer has fired already), so in every later
    state of the execution the timeout event is refused. *)
Theorem timer_never_fires_after_settlement
    (t0 : Z) (n : nat) (evs evs' : list (Event T)) (s s' : State)
    (echo : CloseReport) :
  execution t0 n evs = Some s ->
  settled s = true ->
  run evs' s = Some s' ->
  timer_pending s' = false /\ step (EvTimeout echo) s' = None.
Proof.
  intros Hx Hst Hr.
  pose proof (execution_inv T Unknown PROTOCOL_VERSION uuid_source opts
                t0 n evs s Hx) as HI.
  destruct (settling_events_settled T Unknown opts t0 evs' s s' HI Hst Hr)
    as [_ [_ Hst']].
  pose proof (run_inv T Unknown opts t0 evs' s s' HI Hr) as HI'.
  pose proof (inv_timer _ _ _ _ _ HI') as Htm. rewrite Hst' in Htm.
  unfold timer_pending, step. cbn [enabled]. unfold timer_due.
  destruct Htm as [E|E]; rewrite E; split; reflexivity.
Qed.

End CallGatewayRuns.

(** * The control UI static server *)

Section ControlUiFacts.

Variable host : Host.

Local Open Scope string_scope.

Local Abbreviation handle url method :=
  (handleControlUiHttpRequest host url method []).

Local Abbreviation NOT_FOUND :=
  [SetStatus 404; SetHeader "Content-Type" "text/plain; charset=utf-8";
   End "Not Found"].

Local Abbreviation served_headers f :=
  [SetHeader "Content-Type"
     (contentTypeForExt (toLowerCase host (path_extname host f)));
   SetHeader "Cache-Control" "no-cache"; ReadFile f].

#[local] Arguments contentTypeForExt : simpl never.
#[local] Arguments String.eqb : simpl never.
#[local] Arguments startsWith : simpl never.
#[local] Arguments truthy : simpl never.

Lemma truthy_append_r (a b : string) :
  truthy b = true -> truthy (String.append a b) = true.
Proof.
  destruct a as [|c a]; [intros H; exact H | reflexivity].
Qed.

Lemma candidates_truthy (dir : string) :
  In dir (root_candidates host) -> truthy dir = true.
Proof.
  unfold root_candidates. intros H. apply filter_In in H. apply H.
Qed.

Lemma find_first {A : Type} (f : A -> bool) (l : list A) (x : A) :
  find f l = Some x ->
  exists before rest,
    l = (before ++ x :: rest)%list /\ f x = true /\
    forall y, In y before -> f y = false.
Proof.
  induction l as [|a l IH]; cbn; [discriminate | ].
  destruct (f a) eqn:Hfa.
  - intros E. inversion E; subst. exists [], l.
    split; [reflexivity | split; [assumption | intros y []]].
  - intros E. destruct (IH E) as [before [rest [Hl [Hx Hb]]]].
    exists (a :: before), rest. split; [rewrite Hl; reflexivity | ].
    split; [assumption | ].
    intros y [Hy|Hy]; [subst; assumption | apply Hb, Hy].
Qed.

(** X6: resolveControlUiRoot returns the first candidate directory, in the
    order packaged relay, dist, source tree, working directory, that holds an
    index.html: the result is a non-empty candidate with an index.html, no
    candidate before it has one, and the result is null exactly when no
    candidate has one.  Spelled out: the packaged relay's directory (beside
    the executable, when that is known) wins if it holds an index.html, then
    the one beside the compiled module, then the one of the source tree, then
    the one under the working directory; an empty candidate is passed
    over. *)
Theorem resolveControlUiRoot_first_match :
  match resolveControlUiRoot host with
  | Some root =>
      truthy root = true /\
      existsSync host (path_join host root "index.html") = true /\
      exists before rest,
        root_candidates host = (before ++ root :: rest)%list /\
        forall dir, In dir before ->
                    existsSync host (path_join host dir "index.html") = false
  | None =>
      forall dir, In dir (root_candidates host) ->
                  existsSync host (path_join host dir "index.html") = false
  end /\
  let has_index dir :=
    truthy dir && existsSync host (path_join host dir "index.html") in
  let packaged :=
    match exec_dir host with
    | Some d => if truthy d then path_resolve host [d; "control-ui"] else ""
    | None => ""
    end in
  let beside_dist := path_resolve host [here host; "../control-ui"] in
  let from_source := path_resolve host [here host; "../../dist/control-ui"] in
  let under_cwd := path_resolve host [cwd host; "dist"; "control-ui"] in
  resolveControlUiRoot host =
    if has_index packaged then Some packaged
    else if has_index beside_dist then Some beside_dist
    else if has_index from_source then Some from_source
    else if has_index under_cwd then Some under_cwd
    else None.
Proof.
  split.
  - unfold resolveControlUiRoot.
    destruct (find _ (root_candidates host)) as [root|] eqn:Hf.
    + destruct (find_first _ _ _ Hf) as [before [rest [Hl [Hx Hb]]]].
      split.
      { apply candidates_truthy. rewrite Hl. apply in_or_app. right. left.
        reflexivity. }
      split; [exact Hx | ].
      exists before, rest. split; assumption.
    + intros dir Hin. apply (find_none _ _ Hf dir Hin).
  - cbv zeta. unfold resolveControlUiRoot, root_candidates.
    assert (He : truthy "" = false) by reflexivity.
    destruct (exec_dir host) as [d|]; [destruct (truthy d) | ];
      cbn [app filter find andb]; rewrite ?He; cbn [andb];
      repeat match goal with
             | |- context [truthy (path_resolve host ?l)] =>
                 destruct (truthy (path_resolve host l));
                 cbn [app filter find andb]
             end;
      repeat match goal with
             | |- context [existsSync host ?f] =>
                 destruct (existsSync host f); cbn [app filter find andb]
             end;
      reflexivity.
Qed.

(** X7: the file a pathname asks for is the pathname without its first
    character, with index.html appended when that is empty or ends with a
    slash; the three branches that compute it agree, and the result is never
    empty. *)
Theorem requested_file_is_index_for_directories (pathname : string) :
  requested_file pathname
    = (if negb (truthy (slice_from 1 pathname))
          || endsWith (slice_from 1 pathname) "/"
       then String.append (slice_from 1 pathname) "index.html"
       else slice_from 1 pathname) /\
  truthy (requested_file pathname) = true.
Proof.
  unfold requested_file.
  assert (Hrel : (if String.eqb pathname "/" then ""
                  else if startsWith pathname "/assets/"
                       then slice_from 1 pathname
                       else slice_from 1 pathname) = slice_from 1 pathname).
  { destruct (String.eqb pathname "/") eqn:E.
    - apply String.eqb_eq in E. subst. reflexivity.
    - destruct (startsWith pathname "/assets/"); reflexivity. }
  rewrite Hrel.
  destruct (truthy (slice_from 1 pathname)) eqn:Ht;
    destruct (endsWith (slice_from 1 pathname) "/") eqn:He;
    cbn [andb orb negb];
    rewrite ?Ht, ?truthy_append_r by reflexivity;
    split; reflexivity.
Qed.

Lemma falsy_is_empty (s : string) : negb (truthy s) = true -> s = "".
Proof.
  unfold truthy. rewrite negb_involutive. apply String.eqb_eq.
Qed.

Lemma not_falsy (s : string) : negb (truthy s) = false -> truthy s = true.
Proof.
  destruct (truthy s); [reflexivity | discriminate].
Qed.

(** Evaluates the handler as far as the host's answers allow and splits on
    the next answer. *)
Ltac run_handler :=
  cbv [handleControlUiHttpRequest respondNotFound serveFile
       http_bind http_ret http_call http_try];
  repeat (cbv beta iota; cbn [app fst snd negb];
          match goal with
          | |- context [match ?x with _ => _ end] =>
              first [ is_var x; destruct x
                    | match x with
                      | context [match _ with _ => _ end] => fail 1
                      | _ => destruct x eqn:?
                      end ]
          end);
  cbv beta iota; cbn [app fst snd negb].

Ltac split_log :=
  match goal with
  | |- exists pre body, [?a; ?b; End ?x] = _ /\ _ => exists [a; b], x
  | |- exists pre body, [?a; ?b; ?c; End ?x] = _ /\ _ => exists [a; b; c], x
  end; split; reflexivity.

(** X8: the handler declines (returns false, response untouched) exactly
    when the request has no url: it does so for a missing and for an empty
    url, whatever the method, and in no other case.  Whenever it returns true
    it has ended the response exactly once, as its last call, having set the
    status at most once and read at most one file; when it throws (the URL
    does not parse, or the file cannot be read) it has not ended the
    response. *)
Theorem handler_ends_response_once (url method : option string) :
  handleControlUiHttpRequest host None method [] = (Ok false, []) /\
  handleControlUiHttpRequest host (Some "") method [] = (Ok false, []) /\
  match fst (handle url method) with
  | Ok false =>
      snd (handle url method) = [] /\ (url = None \/ url = Some "")
  | Ok true =>
      (exists urlRaw, url = Some urlRaw /\ truthy urlRaw = true) /\
      (exists pre body,
          snd (handle url method) = (pre ++ [End body])%list /\
          filter is_end pre = []) /\
      (List.length (filter is_status (snd (handle url method))) <= 1)%nat /\
      (List.length (filter is_read (snd (handle url method))) <= 1)%nat
  | Throw _ => filter is_end (snd (handle url method)) = []
  end.
Proof.
  split; [reflexivity | split; [reflexivity | ]].
  run_handler;
    try reflexivity;
    try (split; [reflexivity | ];
         first [ right; f_equal; apply falsy_is_empty; assumption
               | left; reflexivity ]);
    (split;
     [ eexists; split; [reflexivity | apply not_falsy; assumption]
     | split; [split_log | split; cbn; lia] ]).
Qed.

Lemma method_allowed (method : option string) :
  method_refused method = false <->
  method = Some "GET" \/ method = Some "HEAD".
Proof.
  unfold method_refused. destruct method as [m|].
  - destruct (String.eqb m "GET") eqn:G; destruct (String.eqb m "HEAD") eqn:H;
      cbn; split; intros W; try reflexivity; try discriminate;
      try (apply String.eqb_eq in G; subst; left; reflexivity);
      try (apply String.eqb_eq in H; subst; right; reflexivity).
    apply String.eqb_neq in G. apply String.eqb_neq in H.
    destruct W as [W|W]; inversion W; contradiction.
  - split; [discriminate | intros [W|W]; discriminate].
Qed.

Lemma root_has_index (root : string) :
  resolveControlUiRoot host = Some root ->
  truthy root = true /\
  existsSync host (path_join host root "index.html") = true.
Proof.
  unfold resolveControlUiRoot. intros H.
  apply find_some in H. destruct H as [Hin Hidx].
  split; [apply candidates_truthy, Hin | exact Hidx].
Qed.

(** Brings the recorded answers to a common form and looks for two that
    contradict each other. *)
Ltac tidy_bools :=
  repeat match goal with
         | H : negb _ = true |- _ => apply negb_true_iff in H
         | H : negb _ = false |- _ => apply negb_false_iff in H
         | H : _ && _ = true |- _ => apply andb_true_iff in H; destruct H
         end.

Ltac tidy_answers :=
  tidy_bools;
  repeat match goal with
         | H : resolveControlUiRoot host = Some _ |- _ =>
             apply root_has_index in H; destruct H
         end.

Ltac absurd_answers := tidy_answers; congruence.

(** X9: a request with a url and any method other than GET and HEAD
    (a missing method included) is answered 405 "Method Not Allowed" as plain
    text, whatever the url and whatever the host: the URL is not parsed and
    the file system is not consulted. *)
Theorem other_methods_are_refused (urlRaw : string) (method : option string) :
  truthy urlRaw = true ->
  method <> Some "GET" ->
  method <> Some "HEAD" ->
  handle (Some urlRaw) method
    = (Ok true,
       [SetStatus 405; SetHeader "Content-Type" "text/plain; charset=utf-8";
        End "Method Not Allowed"]).
Proof.
  intros Ht Hg Hh.
  assert (Hm : method_refused method = true).
  { destruct (method_refused method) eqn:E; [reflexivity | ].
    apply method_allowed in E. destruct E; contradiction. }
  run_handler; try reflexivity; absurd_answers.
Qed.

(** X10: a GET or HEAD whose pathname is /ui or lies under /ui/ is answered
    404 "Not Found", whether or not the control UI root or any file
    exists. *)
Theorem legacy_ui_prefix_is_not_found
    (urlRaw pathname : string) (method : option string) :
  truthy urlRaw = true ->
  method = Some "GET" \/ method = Some "HEAD" ->
  url_pathname host urlRaw = Ok pathname ->
  pathname = "/ui" \/ startsWith pathname "/ui/" = true ->
  handle (Some urlRaw) method = (Ok true, NOT_FOUND).
Proof.
  intros Ht Hm Hp Hl.
  apply method_allowed in Hm.
  assert (Hc : String.eqb pathname "/ui" || startsWith pathname "/ui/" = true).
  { destruct Hl as [E|E]; [subst; reflexivity | rewrite E; apply orb_true_r]. }
  run_handler; try reflexivity; try absurd_answers.
  all: rewrite Hp in *;
    match goal with H : Ok _ = Ok _ |- _ => inversion H; subst end;
    absurd_answers.
Qed.

(** X11: the handler reads at most the file it has checked: any file it
    reads belongs to a GET or HEAD whose URL parsed, lies under the resolved
    root, and exists; it is either the requested file, which then passed
    isSafeRelativePath and the root-prefix test and is a regular file, or the
    root's index.html. *)
Theorem reads_only_checked_files
    (url method : option string) (file : string) :
  In (ReadFile file) (snd (handle url method)) ->
  exists urlRaw pathname root,
    url = Some urlRaw /\
    (method = Some "GET" \/ method = Some "HEAD") /\
    url_pathname host urlRaw = Ok pathname /\
    resolveControlUiRoot host = Some root /\
    isSafeRelativePath host (requested_file pathname) = true /\
    startsWith (path_join host root (requested_file pathname)) root = true /\
    existsSync host file = true /\
    (file = path_join host root (requested_file pathname) /\
     isFile host file = true
     \/ file = path_join host root "index.html").
Proof.
  run_handler; intros Hin; cbn in Hin;
    repeat (destruct Hin as [Hin|Hin]; [try discriminate Hin | ]);
    try contradiction;
    inversion Hin; subst;
    match goal with
    | Hm : method_refused _ = false |- _ => apply method_allowed in Hm
    end;
    tidy_bools;
    do 3 eexists;
    (split; [reflexivity | ]);
    (split; [eassumption | ]);
    (split; [eassumption | ]);
    (split; [reflexivity | ]);
    (split; [assumption | ]);
    (split; [assumption | ]);
    (split; [assumption | ]);
    first [ left; split; [reflexivity | assumption] | right; reflexivity ].
Qed.

(** X12: a served file always goes out with the content type of its
    lower-cased extension and with Cache-Control: no-cache, both set before
    the file is read, and with no status set (so 200); the body is what
    readFileSync returns, and if that throws the handler throws with the two
    headers already set and the response not ended. *)
Theorem served_file_headers
    (url method : option string) (file : string) :
  In (ReadFile file) (snd (handleControlUiHttpRequest host url method [])) ->
  handleControlUiHttpRequest host url method []
    = match readFileSync host file with
      | Ok body => (Ok true, (served_headers file ++ [End body])%list)
      | Throw e => (Throw e, served_headers file)
      end.
Proof.
  run_handler; intros Hin; cbn in Hin;
    repeat (destruct Hin as [Hin|Hin]; [try discriminate Hin | ]);
    try contradiction;
    inversion Hin; subst; cbn [app]; congruence.
Qed.

(** X19: the only statuses the handler sets are 404, 405 and 503, and an
    answer with a status is a plain-text error: the handler returns true, has
    read no file, and has set the content type to text/plain and no
    Cache-Control header. *)
Theorem error_answers_are_plain_text
    (url method : option string) (code : Z) :
  In (SetStatus code) (snd (handle url method)) ->
  (code = 404 \/ code = 405 \/ code = 503) /\
  fst (handle url method) = Ok true /\
  filter is_read (snd (handle url method)) = [] /\
  In (SetHeader "Content-Type" "text/plain; charset=utf-8")
     (snd (handle url method)) /\
  ~ In (SetHeader "Cache-Control" "no-cache") (snd (handle url method)).
Proof.
  run_handler; intros Hin; cbn in Hin;
    repeat (destruct Hin as [Hin|Hin]; [try discriminate Hin | ]);
    try contradiction;
    inversion Hin; subst;
    (split; [auto | ]);
    (split; [reflexivity | ]);
    (split; [reflexivity | ]);
    (split; [right; left; reflexivity | ]);
    intros Hc; cbn in Hc;
    repeat (destruct Hc as [Hc|Hc]; [discriminate Hc | ]);
    contradiction.
Qed.

End ControlUiFacts.

(** * Tab routes *)

Section NavigationFacts.

Variable trim : string -> string.
Variable lower : string -> string.

Local Open Scope string_scope.

Lemma prefix_append (a x y : string) :
  String.prefix (String.append a x) (String.append a y) = String.prefix x y.
Proof.
  induction a as [|c a IH]; [reflexivity | ].
  cbn. destruct (Ascii.ascii_dec c c) as [_|N]; [exact IH | contradiction].
Qed.

Lemma slice_from_append (a y : string) :
  slice_from (String.length a) (String.append a y) = y.
Proof.
  induction a as [|c a IH]; [destruct y; reflexivity | exact IH].
Qed.

Lemma length_append (a y : string) :
  String.length (String.append a y) = (String.length a + String.length y)%nat.
Proof.
  induction a as [|c a IH]; [reflexivity | cbn; rewrite IH; reflexivity].
Qed.

Lemma append_differs (a y : string) :
  y <> "" -> String.eqb (String.append a y) a = false.
Proof.
  intros Hy. apply String.eqb_neq. intros E.
  apply (f_equal String.length) in E. rewrite length_append in E.
  destruct y; [contradiction | cbn in E; lia].
Qed.

Lemma append_cancel (a x y : string) :
  String.append a x = String.append a y -> x = y.
Proof.
  induction a as [|c a IH]; [intros E; exact E | ].
  cbn. intros E. inversion E. apply IH. assumption.
Qed.

Lemma TAB_PATHS_injective (t1 t2 : Tab) :
  TAB_PATHS t1 = TAB_PATHS t2 -> t1 = t2.
Proof.
  destruct t1, t2; cbn; intros E; first [reflexivity | discriminate E].
Qed.

Lemma normalizePath_tab (t : Tab) :
  trim (TAB_PATHS t) = TAB_PATHS t ->
  normalizePath trim (TAB_PATHS t) = TAB_PATHS t.
Proof.
  intros Ht. unfold normalizePath.
  replace (truthy (TAB_PATHS t)) with true by (destruct t; reflexivity).
  cbn [negb]. rewrite Ht. destruct t; reflexivity.
Qed.

Lemma lookup_tab_path (t : Tab) :
  (if String.eqb
        (if endsWith (TAB_PATHS t) "/index.html" then "/" else TAB_PATHS t) "/"
   then Some chat
   else map_get
          (if endsWith (TAB_PATHS t) "/index.html" then "/" else TAB_PATHS t)
          PATH_TO_TAB)
  = Some t.
Proof. destruct t; reflexivity. Qed.

(** X14: a route made by pathForTab is read back by tabFromPath as the same
    tab, for every tab and every base path (given or omitted), provided the
    engine's trim and toLowerCase leave the ten tab paths as they are. *)
Theorem tab_round_trip (tab : Tab) (basePath : option string) :
  (forall t, trim (TAB_PATHS t) = TAB_PATHS t) ->
  (forall t, lower (TAB_PATHS t) = TAB_PATHS t) ->
  tabFromPath trim lower (pathForTab trim tab basePath) basePath = Some tab.
Proof.
  intros Htrim Hlower.
  assert (Hp : truthy (TAB_PATHS tab) = true) by (destruct tab; reflexivity).
  assert (Hne : TAB_PATHS tab <> "") by (destruct tab; discriminate).
  assert (Hsl : String.prefix "/" (TAB_PATHS tab) = true)
    by (destruct tab; reflexivity).
  unfold tabFromPath, pathForTab.
  destruct (truthy (normalizeBasePath trim (basePath ?? ""))) eqn:Hb.
  - rewrite (truthy_append_r _ _ Hp), (append_differs _ _ Hne).
    unfold startsWith. rewrite prefix_append, Hsl, slice_from_append.
    rewrite (normalizePath_tab tab (Htrim tab)), Hlower.
    apply lookup_tab_path.
  - rewrite Hp, (normalizePath_tab tab (Htrim tab)), Hlower.
    apply lookup_tab_path.
Qed.

(** X15: pathForTab gives different tabs different routes under the same
    base path. *)
Theorem pathForTab_injective (t1 t2 : Tab) (basePath : option string) :
  pathForTab trim t1 basePath = pathForTab trim t2 basePath -> t1 = t2.
Proof.
  unfold pathForTab.
  destruct (truthy (normalizeBasePath trim (basePath ?? ""))); intros E.
  - apply TAB_PATHS_injective, (append_cancel _ _ _ E).
  - apply TAB_PATHS_injective, E.
Qed.

Lemma slice_but_last_keeps_slash (s : string) :
  startsWith s "/" = true -> (1 <? String.length s)%nat = true ->
  startsWith (slice_but_last s) "/" = true.
Proof.
  destruct s as [|c1 [|c2 r]]; try discriminate.
  unfold startsWith, slice_but_last. cbn -[Ascii.ascii_dec].
  match goal with
  | |- context [Ascii.ascii_dec ?a ?b] => destruct (Ascii.ascii_dec a b)
  end; [intros _ _; destruct (String.length r); reflexivity | discriminate].
Qed.

Lemma slashed_starts_with_slash (s : string) :
  startsWith (if negb (startsWith s "/") then String.append "/" s else s) "/"
  = true.
Proof.
  destruct (startsWith s "/") eqn:E; cbn [negb]; [exact E | ].
  unfold startsWith. destruct s; reflexivity.
Qed.

(** X16: normalizePath never returns the empty string: its result always
    begins with a slash, whatever the input and whatever trim does.
    normalizeBasePath returns either the empty string (no base) or a string
    that begins with a slash. *)
Theorem normalized_paths_begin_with_slash (path : string) :
  startsWith (normalizePath trim path) "/" = true /\
  (normalizeBasePath trim path = ""
   \/ startsWith (normalizeBasePath trim path) "/" = true).
Proof.
  split.
  - unfold normalizePath.
    destruct (negb (truthy path)); [reflexivity | ].
    pose proof (slashed_starts_with_slash (trim path)) as H.
    destruct ((1 <? String.length _)%nat) eqn:Hl; cbn [andb]; [ | exact H].
    destruct (endsWith _ "/"); [ | exact H].
    apply slice_but_last_keeps_slash; assumption.
  - unfold normalizeBasePath.
    destruct (negb (truthy path)); [left; reflexivity | ].
    pose proof (slashed_starts_with_slash (trim path)) as H.
    destruct (String.eqb _ "/") eqn:E; [left; reflexivity | right].
    destruct (endsWith _ "/"); [ | exact H].
    apply slice_but_last_keeps_slash; [exact H | ].
    apply String.eqb_neq in E. revert H E.
    generalize (if negb (startsWith (trim path) "/")
                then String.append "/" (trim path) else trim path).
    intros s H E. destruct s as [|c1 [|c2 r]]; try reflexivity.
    + discriminate H.
    + exfalso. apply E. unfold startsWith in H. cbn -[Ascii.ascii_dec] in H.
      match type of H with
      | context [Ascii.ascii_dec ?a ?b] => destruct (Ascii.ascii_dec a b)
      end; [subst; reflexivity | discriminate].
Qed.

(** X17: PATH_TO_TAB, the map built from the entries of TAB_PATHS, is the
    exact inverse of TAB_PATHS: a path is mapped to a tab precisely when it
    is that tab's path. *)
Theorem PATH_TO_TAB_inverts_TAB_PATHS (path : string) (tab : Tab) :
  map_get path PATH_TO_TAB = Some tab <-> path = TAB_PATHS tab.
Proof.
  split.
  - change PATH_TO_TAB with
      [("/overview", overview); ("/connections", connections);
       ("/instances", instances); ("/sessions", sessions); ("/cron", cron);
       ("/skills", skills); ("/nodes", nodes); ("/chat", chat);
       ("/config", config); ("/debug", debug)].
    cbn [map_get].
    repeat match goal with
           | |- context [String.eqb path ?k] =>
               destruct (String.eqb path k) eqn:?
           end;
    intros E; try discriminate E; inversion E; subst;
    match goal with
    | H : String.eqb path _ = true |- _ => apply String.eqb_eq in H; exact H
    end.
  - intros E. subst. destruct tab; reflexivity.
Qed.

(** X18: the navigation groups partition the tabs: every tab is listed in
    TAB_GROUPS, and none is listed twice, within a group or across groups. *)
Theorem TAB_GROUPS_partition_tabs :
  NoDup (List.concat (map snd TAB_GROUPS)) /\
  forall tab : Tab, In tab (List.concat (map snd TAB_GROUPS)).
Proof.
  split.
  - cbn. repeat constructor; cbn; intuition discriminate.
  - intros tab. destruct tab; cbn; tauto.
Qed.

End NavigationFacts.

(** * More concrete runs *)

Local Open Scope string_scope.

Lemma client_stop_once_per_shutdown_turn_witness :
  sample_execution
    [EvHelloOk; EvElapse 50; EvTimeout None; EvResponse "late" None]
  = Some (state_after
            [EvHelloOk; EvElapse 50; EvTimeout None; EvResponse "late" None]) /\
  calls is_client_stop
    (trace (state_after
              [EvHelloOk; EvElapse 50; EvTimeout None; EvResponse "late" None]))
  = 2%nat.
Proof.
  assert (Hx : sample_execution
                 [EvHelloOk; EvElapse 50; EvTimeout None; EvResponse "late" None]
               = Some (state_after
                         [EvHelloOk; EvElapse 50; EvTimeout None;
                          EvResponse "late" None]))
    by by_evaluation.
  split; [exact Hx | ].
  exact (client_stop_once_per_shutdown_turn string string 2 sample_uuids
           sample_opts 1000 0%nat _ _ Hx).
Defined.

Lemma one_request_per_hello_witness :
  sample_execution [EvHelloOk; EvHelloOk]
  = Some (state_after [EvHelloOk; EvHelloOk]) /\
  calls is_request (trace (state_after [EvHelloOk; EvHelloOk])) = 2%nat.
Proof.
  assert (Hx : sample_execution [EvHelloOk; EvHelloOk]
               = Some (state_after [EvHelloOk; EvHelloOk]))
    by by_evaluation.
  split; [exact Hx | ].
  exact (proj1 (one_request_per_hello string string 2 sample_uuids
                  sample_opts 1000 0%nat _ _ Hx)).
Defined.

Lemma outcome_is_final_witness :
  sample_execution [EvHelloOk; EvElapse 50; EvTimeout None]
  = Some (state_after [EvHelloOk; EvElapse 50; EvTimeout None]) /\
  settled (state_after [EvHelloOk; EvElapse 50; EvTimeout None]) = true /\
  run sample_opts [EvResponse "late" None]
      (state_after [EvHelloOk; EvElapse 50; EvTimeout None])
  = Some (state_after
            [EvHelloOk; EvElapse 50; EvTimeout None; EvResponse "late" None]) /\
  promise (state_after
             [EvHelloOk; EvElapse 50; EvTimeout None; EvResponse "late" None])
  = promise (state_after [EvHelloOk; EvElapse 50; EvTimeout None]).
Proof.
  assert (Hx : sample_execution [EvHelloOk; EvElapse 50; EvTimeout None]
               = Some (state_after [EvHelloOk; EvElapse 50; EvTimeout None]))
    by by_evaluation.
  assert (Hst : settled (state_after [EvHelloOk; EvElapse 50; EvTimeout None])
                = true) by by_evaluation.
  assert (Hr : run sample_opts [EvResponse "late" None]
                 (state_after [EvHelloOk; EvElapse 50; EvTimeout None])
               = Some (state_after
                         [EvHelloOk; EvElapse 50; EvTimeout None;
                          EvResponse "late" None]))
    by by_evaluation.
  do 3 (split; [assumption | ]).
  exact (proj1 (proj2 (outcome_is_final string string 2 sample_uuids
                         sample_opts 1000 0%nat _ _ _ _ Hx Hst Hr))).
Defined.

Lemma timer_never_fires_after_settlement_witness :
  sample_execution pong_run = Some (state_after pong_run) /\
  settled (state_after pong_run) = true /\
  run sample_opts [EvElapse 50] (state_after pong_run)
  = Some (state_after [EvHelloOk; EvResponse "pong" None; EvElapse 50]) /\
  step sample_opts (EvTimeout None)
       (state_after [EvHelloOk; EvResponse "pong" None; EvElapse 50])
  = None.
Proof.
  assert (Hx : sample_execution pong_run = Some (state_after pong_run))
    by by_evaluation.
  assert (Hst : settled (state_after pong_run) = true) by by_evaluation.
  assert (Hr : run sample_opts [EvElapse 50] (state_after pong_run)
               = Some (state_after
                         [EvHelloOk; EvResponse "pong" None; EvElapse 50]))
    by by_evaluation.
  do 3 (split; [assumption | ]).
  exact (proj2 (timer_never_fires_after_settlement string string 2
                  sample_uuids sample_opts 1000 0%nat _ _ _ _ None
                  Hx Hst Hr)).
Defined.

Lemma other_methods_are_refused_witness :
  truthy "/overview" = true /\
  Some "POST" <> Some "GET" /\
  Some "POST" <> Some "HEAD" /\
  handleControlUiHttpRequest sample_host (Some "/overview") (Some "POST") []
  = (Ok true,
     [SetStatus 405; SetHeader "Content-Type" "text/plain; charset=utf-8";
      End "Method Not Allowed"]).
Proof.
  assert (H1 : truthy "/overview" = true) by reflexivity.
  assert (H2 : Some "POST" <> Some "GET") by discriminate.
  assert (H3 : Some "POST" <> Some "HEAD") by discriminate.
  do 3 (split; [assumption | ]).
  exact (other_methods_are_refused sample_host "/overview" (Some "POST")
           H1 H2 H3).
Defined.

Lemma legacy_ui_prefix_is_not_found_witness :
  truthy "/ui/chat" = true /\
  url_pathname sample_host "/ui/chat" = Ok "/ui/chat" /\
  startsWith "/ui/chat" "/ui/" = true /\
  handleControlUiHttpRequest sample_host (Some "/ui/chat") (Some "GET") []
  = (Ok true,
     [SetStatus 404; SetHeader "Content-Type" "text/plain; charset=utf-8";
      End "Not Found"]).
Proof.
  assert (H1 : truthy "/ui/chat" = true) by reflexivity.
  assert (H2 : url_pathname sample_host "/ui/chat" = Ok "/ui/chat")
    by reflexivity.
  assert (H3 : startsWith "/ui/chat" "/ui/" = true) by reflexivity.
  do 3 (split; [assumption | ]).
  exact (legacy_ui_prefix_is_not_found sample_host "/ui/chat" "/ui/chat"
           (Some "GET") H1 (or_introl eq_refl) H2 (or_intror H3)).
Defined.

Lemma reads_only_checked_files_witness :
  In (ReadFile "/srv/ui/index.html")
     (snd (handleControlUiHttpRequest sample_host (Some "/overview")
             (Some "GET") [])) /\
  existsSync sample_host "/srv/ui/index.html" = true.
Proof.
  assert (H : In (ReadFile "/srv/ui/index.html")
                (snd (handleControlUiHttpRequest sample_host
                        (Some "/overview") (Some "GET") [])))
    by (vm_compute; tauto).
  split; [exact H | ].
  destruct (reads_only_checked_files sample_host _ _ _ H)
    as [u [p [r [_ [_ [_ [_ [_ [_ [E _]]]]]]]]]].
  exact E.
Defined.

Lemma served_file_headers_witness :
  In (ReadFile "/srv/ui/assets/app.js")
     (snd (handleControlUiHttpRequest sample_host (Some "/assets/app.js")
             (Some "HEAD") [])) /\
  handleControlUiHttpRequest sample_host (Some "/assets/app.js")
    (Some "HEAD") []
  = match readFileSync sample_host "/srv/ui/assets/app.js" with
    | Ok body =>
        (Ok true,
         [SetHeader "Content-Type"
            (contentTypeForExt
               (toLowerCase sample_host
                  (path_extname sample_host "/srv/ui/assets/app.js")));
          SetHeader "Cache-Control" "no-cache";
          ReadFile "/srv/ui/assets/app.js"; End body])
    | Throw e =>
        (Throw e,
         [SetHeader "Content-Type"
            (contentTypeForExt
               (toLowerCase sample_host
                  (path_extname sample_host "/srv/ui/assets/app.js")));
          SetHeader "Cache-Control" "no-cache";
          ReadFile "/srv/ui/assets/app.js"])
    end.
Proof.
  assert (H : In (ReadFile "/srv/ui/assets/app.js")
                (snd (handleControlUiHttpRequest sample_host
                        (Some "/assets/app.js") (Some "HEAD") [])))
    by (vm_compute; tauto).
  split; [exact H | ].
  exact (served_file_headers sample_host _ _ _ H).
Defined.

Lemma tab_round_trip_witness :
  (forall t, sample_trim (TAB_PATHS t) = TAB_PATHS t) /\
  (forall t, sample_lower (TAB_PATHS t) = TAB_PATHS t) /\
  tabFromPath sample_trim sample_lower
    (pathForTab sample_trim sessions (Some " control/ ")) (Some " control/ ")
  = Some sessions.
Proof.
  assert (H1 : forall t, sample_trim (TAB_PATHS t) = TAB_PATHS t)
    by (intros t; destruct t; reflexivity).
  assert (H2 : forall t, sample_lower (TAB_PATHS t) = TAB_PATHS t)
    by (intros t; destruct t; reflexivity).
  split; [exact H1 | split; [exact H2 | ]].
  exact (tab_round_trip sample_trim sample_lower sessions
           (Some " control/ ") H1 H2).
Defined.

Lemma pathForTab_injective_witness :
  pathForTab sample_trim cron (Some "/control")
  = pathForTab sample_trim cron (Some "/control") /\
  cron = cron.
Proof.
  split; [reflexivity | ].
  exact (pathForTab_injective sample_trim cron cron (Some "/control") eq_refl).
Defined.

Lemma error_answers_are_plain_text_witness :
  In (SetStatus 404)
     (snd (handleControlUiHttpRequest sample_host (Some "/ui") (Some "GET") []))
  /\
  filter is_read
    (snd (handleControlUiHttpRequest sample_host (Some "/ui") (Some "GET") []))
  = [].
Proof.
  assert (H : In (SetStatus 404)
                (snd (handleControlUiHttpRequest sample_host (Some "/ui")
                        (Some "GET") [])))
    by (vm_compute; tauto).
  split; [exact H | ].
  destruct (error_answers_are_plain_text sample_host _ _ _ H)
    as [_ [_ [E _]]].
  exact E.
Defined.
